(** * parse_csv.py: loading, channel averaging and plotting of HRF tables

    A shallow embedding of [parse_hrf_csv] and [disp_avg_HRF].

    - Cells of the table and entries of the arrays are IEEE-754 binary64
      numbers (numpy's [float64]); they are Rocq's primitive floats, whose
      operations are the ones the hardware performs.  General facts about
      them go through [SpecFloat], to which [FloatAxioms] relates each
      primitive operation.
    - A [DataFrame] is a row count together with the ordered, named columns.
      Its cells are numbers; the arrays taken from a table without rows are
      of dtype object, as [pd.read_csv] has no cell to infer a number type
      from, and pyplot refuses them.
    - The order in which [np.mean] adds the entries depends on the memory
      layout of the array: [df.values] lies column after column, so the
      channels of a row are added one after the other unless the table has a
      single row, where numpy's pairwise summation takes over.
    - The one-dimensional arrays the function binds to its local names live
      in a store and are passed by reference; the store, the recorded pyplot
      calls and the trace of file and console accesses are threaded through
      a state-and-exception monad.  The file system is read only.
    - [disp_avg_HRF] is cut in two at the comment that opens its plotting
      part: [reduce_HRF] (loader, means, time vector) and [render_HRF], which
      is the plotting part on float64 arrays.
    - The module-level loop over the six files, [exit()], and
      [load_nirs_hrf_data] with the lookups that follow it run in a second
      monad that adds the printed lines, [KeyError] and [SystemExit]. *)

From Stdlib Require Import String Ascii List Bool ZArith Lia Permutation.
From Stdlib Require Import Floats Uint63.
Import ListNotations.

#[local] Set Warnings "-inexact-float".

Local Open Scope string_scope.
Local Open Scope list_scope.

(** ** Numbers *)

Definition float64 : Set := PrimFloat.float.

(** A dimension or a count (numpy's [intp], below 2^63) used as a float64. *)
Definition float_of_nat (n : nat) : float64 :=
  PrimFloat.of_uint63 (Uint63.of_Z (Z.of_nat n)).

(** numpy's [==] on two float64 scalars. *)
Definition np_equal (x y : float64) : bool := PrimFloat.eqb x y.

Definition np_isfinite (x : float64) : bool :=
  PrimFloat.ltb (PrimFloat.abs x) PrimFloat.infinity.

(** ** Strings *)

(** [s.startswith(p)]. *)
Fixpoint startswith (p s : string) : bool :=
  match p, s with
  | EmptyString, _ => true
  | String a p', String b s' => Ascii.eqb a b && startswith p' s'
  | String _ _, EmptyString => false
  end.

(** Python's [sub in s] on strings: [sub] occurs in [s] at some offset. *)
Fixpoint str_contains (sub s : string) : bool :=
  startswith sub s ||
  match s with
  | EmptyString => false
  | String _ s' => str_contains sub s'
  end.

(** [os.path.basename]: what follows the last slash. *)
Fixpoint basename_from (acc s : string) : string :=
  match s with
  | EmptyString => acc
  | String c s' =>
      if Ascii.eqb c "/" then basename_from EmptyString s'
      else basename_from (acc ++ String c EmptyString) s'
  end.

Definition basename (s : string) : string := basename_from EmptyString s.

(** ** numpy arrays *)

(** A one-dimensional float64 array. *)
Definition ndarray1 : Set := list float64.

(** A two-dimensional float64 array: its shape and its rows. *)
Record ndarray2 : Set := mk_ndarray2 {
  shape : nat * nat;
  rows : list (list float64)
}.

Definition shape_ok (a : ndarray2) : Prop :=
  length (rows a) = fst (shape a) /\
  Forall (fun r => length r = snd (shape a)) (rows a).

(** Two arrays combined entry by entry, up to the shorter one. *)
Fixpoint zip_with (f : float64 -> float64 -> float64) (a b : ndarray1) : ndarray1 :=
  match a, b with
  | x :: a', y :: b' => f x y :: zip_with f a' b'
  | _, _ => []
  end.

(** The memory layout of a two-dimensional array: row after row (C order)
    or column after column (F order).  pandas keeps each column of a table
    contiguous, so [df.values] is in F order, and so is its copy by
    [np.array]; the transpose of an array is a view of the same memory in
    the other order. *)
Inductive order : Set :=
  | C_order
  | F_order.

Definition transposed (o : order) : order :=
  match o with
  | C_order => F_order
  | F_order => C_order
  end.

(** [np.add.reduce] for one entry of the result when the reduced axis is
    the outer loop of the iteration: the output starts at the identity 0 and
    the entries along the axis are added to it one after the other. *)
Definition add_reduce (r : list float64) : float64 :=
  fold_left PrimFloat.add r 0%float.

(** The unrolled loop of numpy's pairwise summation: eight accumulators [r],
    to which the entries of each further block of eight are added, entry
    [i + j] to accumulator [j]; what is left of the entries is returned with
    the accumulators. *)
Fixpoint unrolled (blocks : nat) (r a : list float64)
  : list float64 * list float64 :=
  match blocks with
  | O => (r, a)
  | S b => unrolled b (zip_with PrimFloat.add r (firstn 8 a)) (skipn 8 a)
  end.

(** The sum of 8 to 128 entries: the accumulators start as the first eight
    entries and take [n / 8 - 1] more blocks; they are added up as a
    balanced tree, and the entries after the last whole block are added to
    that sum one after the other. *)
Definition pairwise_block (a : list float64) : float64 :=
  let '(r, rest) := unrolled (length a / 8 - 1) (firstn 8 a) (skipn 8 a) in
  let r_ (j : nat) := nth j r 0%float in
  fold_left PrimFloat.add rest
    (PrimFloat.add
       (PrimFloat.add (PrimFloat.add (r_ 0) (r_ 1)) (PrimFloat.add (r_ 2) (r_ 3)))
       (PrimFloat.add (PrimFloat.add (r_ 4) (r_ 5)) (PrimFloat.add (r_ 6) (r_ 7)))).

Definition PW_BLOCKSIZE : nat := 128.

(** numpy's pairwise summation of float64 entries.  Fewer than 8 entries are
    added one after the other to a sum that starts at 0; up to
    [PW_BLOCKSIZE] entries are summed by [pairwise_block]; a longer run is
    cut at [n2], half its length rounded down to a multiple of 8, and the
    sums of the two parts are added.  [depth] bounds the nesting of the
    cuts; [pairwise_sum] starts with the length, which the halving never
    exhausts. *)
Fixpoint pairwise_sum_rec (depth : nat) (a : list float64) : float64 :=
  let n := length a in
  if (n <? 8)%nat then fold_left PrimFloat.add a 0%float
  else if (n <=? PW_BLOCKSIZE)%nat then pairwise_block a
  else
    match depth with
    | O => pairwise_block a
    | S d =>
        let n2 := n / 2 in
        let n2 := n2 - n2 mod 8 in
        PrimFloat.add (pairwise_sum_rec d (firstn n2 a))
                      (pairwise_sum_rec d (skipn n2 a))
    end.

Definition pairwise_sum (a : list float64) : float64 :=
  pairwise_sum_rec (length a) a.

(** [np.add.reduce] for one entry of the result when the reduced axis is
    the inner loop of the iteration: the entries along the axis are summed
    pairwise, and the sum is added to the output, which starts at 0. *)
Definition add_reduce_inner (r : list float64) : float64 :=
  PrimFloat.add 0%float (pairwise_sum r).

(** Whether the iteration of a reduction over axis 1, or over axis 0, has
    the reduced axis as its inner loop: numpy takes as inner loop the axis
    with the smaller stride, and an axis with a single entry is dropped. *)
Definition inner_axis1 (o : order) (sh : nat * nat) : bool :=
  match o with
  | C_order => true
  | F_order => (fst sh <=? 1)%nat
  end.

Definition inner_axis0 (o : order) (sh : nat * nat) : bool :=
  match o with
  | C_order => (snd sh <=? 1)%nat
  | F_order => true
  end.

(** [np.mean(a, axis=1)] of an array in memory order [o]: the sum over the
    columns of each row divided by the number of columns.  An empty axis
    gives 0/0, that is NaN, with a warning and no exception. *)
Definition np_mean_axis1 (o : order) (a : ndarray2) : ndarray1 :=
  let rcount := snd (shape a) in
  let sum := if inner_axis1 o (shape a) then add_reduce_inner else add_reduce in
  map (fun r => PrimFloat.div (sum r) (float_of_nat rcount)) (rows a).

(** [np.mean(a, axis=1)] where the program calls it: on the [values] of a
    table, which are in F order. *)
Definition mean_axis1 (a : ndarray2) : ndarray1 := np_mean_axis1 F_order a.

(** [np.arange(0, num)] as float64. *)
Definition arange (num : nat) : ndarray1 := map float_of_nat (seq 0 num).

(** [y[-1] = v] on a non-empty array. *)
Definition set_last (y : ndarray1) (v : float64) : ndarray1 :=
  removelast y ++ [v].

(** [np.linspace(start, stop, num)] with the default [endpoint=True]. *)
Definition linspace (start stop : float64) (num : nat) : ndarray1 :=
  let div := (Z.of_nat num - 1)%Z in
  let delta := PrimFloat.sub stop start in
  let y := arange num in
  let y :=
    if (0 <? div)%Z then
      let step := PrimFloat.div delta (float_of_nat (num - 1)) in
      if np_equal step 0%float then
        map (fun v => PrimFloat.mul (PrimFloat.div v (float_of_nat (num - 1))) delta) y
      else
        map (fun v => PrimFloat.mul v step) y
    else
      map (fun v => PrimFloat.mul v delta) y in
  let y := map (fun v => PrimFloat.add v start) y in
  if (1 <? num)%nat then set_last y stop else y.

(** ** pandas tables *)

Record DataFrame : Set := mk_DataFrame {
  index_len : nat;
  columns : list (string * list float64)
}.

(** Every column has one cell per row. *)
Definition well_formed (df : DataFrame) : Prop :=
  Forall (fun c => length (snd c) = index_len df) (columns df).

(** [df.filter(like=like)]: the columns whose label contains [like], in the
    order of the table; the index is kept. *)
Definition filter_like (like : string) (df : DataFrame) : DataFrame :=
  {| index_len := index_len df;
     columns := filter (fun c => str_contains like (fst c)) (columns df) |}.

(** [df.values]: the cells as a rows-by-columns array. *)
Definition values (df : DataFrame) : ndarray2 :=
  {| shape := (index_len df, length (columns df));
     rows := map (fun i => map (fun c => nth i (snd c) PrimFloat.nan) (columns df))
                 (seq 0 (index_len df)) |}.

(** The dtype of an array.  [pd.read_csv] infers the dtype of a column from
    its cells, and a column without cells is of dtype object. *)
Inductive dtype : Set :=
  | Float64
  | Object.

(** The dtype of the [values] of columns read by [pd.read_csv] from numbers:
    object when there are columns but no rows; float64 otherwise, which is
    also the dtype pandas gives the array of no columns at all. *)
Definition values_dtype (a : ndarray2) : dtype :=
  match shape a with
  | (O, S _) => Object
  | _ => Float64
  end.

(** The dtype of [a - b] and [a + b]; [np.mean] keeps the dtype of an
    object array. *)
Definition result_type (a b : dtype) : dtype :=
  match a, b with
  | Float64, Float64 => Float64
  | _, _ => Object
  end.

(** ** Exceptions, files and the state of a run *)

(** What [pd.read_csv] raises on content it cannot interpret. *)
Inductive parse_failure : Set :=
  | ParserError
  | EmptyDataError
  | UnicodeDecodeError.

(** [FileNotFoundError msg] is the exception built from a message by
    [raise FileNotFoundError(msg)]; [NoSuchFile filename] is the
    [FileNotFoundError] the operating system gives for a path that does not
    exist (errno 2, with the path as its [filename]); [TypeError] is what
    [np.isfinite] raises on an array of dtype object. *)
Inductive exn : Set :=
  | FileNotFoundError (msg : string)
  | NoSuchFile (filename : string)
  | ReadCsvError (e : parse_failure)
  | ValueError (msg : string)
  | TypeError.

(** What is stored under a path: content [pd.read_csv] rejects, or a table. *)
Inductive file : Set :=
  | Malformed (e : parse_failure)
  | Csv (df : DataFrame).

(** A path that maps to [None] does not exist. *)
Definition filesystem : Set := string -> option file.

(** A reference to a one-dimensional array held in the store. *)
Definition ref : Set := nat.

(** The calls received by pyplot, which make up the current figure. *)
Inductive plt_call : Set :=
  | Figure (width height : float64)
  | FillBetween (x y1 y2 : ndarray1) (color : string) (alpha : float64)
                (edgecolor label : string)
  | Plot (x y : ndarray1) (color : string) (linewidth : float64) (zorder : Z)
         (label : string)
  | Ylim (lo hi : float64)
  | Axhline (y : float64) (color linestyle : string) (linewidth : float64)
  | Title (s : string) (fontsize : Z)
  | Xlabel (s : string) (fontsize : Z)
  | Ylabel (s : string) (fontsize : Z)
  | Legend (frameon : bool) (fontsize : Z)
  | TickParams (direction : string)
  | TightLayout
  | Savefig (path : string) (dpi : Z)
  | Show.

(** What the run does to the outside, in order. *)
Inductive event : Set :=
  | PathExists (path : string)
  | ReadCsv (path : string)
  | PrintParsed (name : string) (ts_shape std_shape : nat * nat).

Record state : Set := mk_state {
  heap : list ndarray1;
  plt : list plt_call;
  trace : list event
}.

Definition initial_state : state :=
  {| heap := []; plt := []; trace := [] |}.

Inductive result (A : Type) : Type :=
  | Ok (a : A)
  | Raise (e : exn).

Arguments Ok {A} a.
Arguments Raise {A} e.

Definition IO (A : Type) : Type := state -> result A * state.

Definition ret {A} (a : A) : IO A := fun s => (Ok a, s).

Definition raise {A} (e : exn) : IO A := fun s => (Raise e, s).

Definition bind {A B} (m : IO A) (k : A -> IO B) : IO B :=
  fun s =>
    match m s with
    | (Ok a, s') => k a s'
    | (Raise e, s') => (Raise e, s')
    end.

Notation "x <- m ;; k" := (bind m (fun x => k))
  (at level 61, m at next level, right associativity).
Notation "m ;;; k" := (bind m (fun _ => k))
  (at level 61, right associativity).

Definition emit (e : event) : IO unit :=
  fun s => (Ok tt, {| heap := heap s; plt := plt s; trace := trace s ++ [e] |}).

Definition plt_do (c : plt_call) : IO unit :=
  fun s => (Ok tt, {| heap := heap s; plt := plt s ++ [c]; trace := trace s |}).

(** A fresh array in the store. *)
Definition np_new (a : ndarray1) : IO ref :=
  fun s => (Ok (length (heap s)),
            {| heap := heap s ++ [a]; plt := plt s; trace := trace s |}).

(** The array a reference points to (references are never dangling). *)
Definition np_get (r : ref) : IO ndarray1 :=
  fun s => (Ok (nth r (heap s) []), s).

(** An elementwise binary operation on two one-dimensional arrays with
    numpy's broadcasting: equal lengths pair up, a length-1 operand is
    stretched, anything else is a [ValueError]. *)
Definition broadcast (f : float64 -> float64 -> float64) (a b : ndarray1)
  : result ndarray1 :=
  if Nat.eqb (length a) (length b) then Ok (zip_with f a b)
  else match a, b with
       | [x], _ => Ok (map (fun y => f x y) b)
       | _, [y] => Ok (map (fun x => f x y) a)
       | _, _ => Raise (ValueError "operands could not be broadcast together")
       end.

(** [a - b] and [a + b] on references: the operands are read and the result
    is a new array. *)
Definition np_binop (f : float64 -> float64 -> float64) (ra rb : ref) : IO ref :=
  a <- np_get ra ;;
  b <- np_get rb ;;
  match broadcast f a b with
  | Ok c => np_new c
  | Raise e => raise e
  end.

(** ** os and pandas calls *)

Definition os_path_exists (fs : filesystem) (path : string) : IO bool :=
  emit (PathExists path) ;;;
  ret (match fs path with Some _ => true | None => false end).

Definition pd_read_csv (fs : filesystem) (path : string) : IO DataFrame :=
  emit (ReadCsv path) ;;;
  match fs path with
  | None => raise (NoSuchFile path)
  | Some (Malformed e) => raise (ReadCsvError e)
  | Some (Csv df) => ret df
  end.

(** ** The program *)

(** [parse_hrf_csv(file_path)]. *)
Definition parse_hrf_csv (fs : filesystem) (file_path : string)
  : IO (ndarray2 * ndarray2) :=
  found <- os_path_exists fs file_path ;;
  if negb found then
    raise (FileNotFoundError ("Error: File not found at " ++ file_path))
  else
    df <- pd_read_csv fs file_path ;;
    let df_ts := filter_like "ts_ch" df in
    let df_std := filter_like "std_ch" df in
    let ts_array := values df_ts in
    let std_array := values df_std in
    emit (PrintParsed (basename file_path) (shape ts_array) (shape std_array)) ;;;
    ret (ts_array, std_array).

(** The arrays bound to the local names of [disp_avg_HRF] once the traces
    and the time vector are computed. *)
Record locals : Set := mk_locals {
  ts_mean : ref;
  std_avg_across_channels : ref;
  num_timepoints : nat;
  t : ref
}.

(** [disp_avg_HRF], from the two means to the time vector. *)
Definition reduce_arrays (p : ndarray2 * ndarray2) : IO locals :=
  let '(ts, std) := p in
  ts_mean <- np_new (mean_axis1 ts) ;;
  std_avg_across_channels <- np_new (mean_axis1 std) ;;
  let num_timepoints := fst (shape ts) in
  t <- np_new (linspace 0%float 20%float num_timepoints) ;;
  ret {| ts_mean := ts_mean;
         std_avg_across_channels := std_avg_across_channels;
         num_timepoints := num_timepoints;
         t := t |}.

(** [disp_avg_HRF], from the call of the loader to the time vector. *)
Definition reduce_HRF (fs : filesystem) (filepath : string) : IO locals :=
  p <- parse_hrf_csv fs filepath ;;
  reduce_arrays p.

(** [plt.fill_between(x, y1, y2, ...)] on arrays of dtype [dt].  pyplot
    masks the invalid entries of its arrays with [np.isfinite], which raises
    [TypeError] on dtype object; nothing is drawn then. *)
Definition plt_fill_between (dt : dtype) (x y1 y2 : ndarray1) (color : string)
    (alpha : float64) (edgecolor label : string) : IO unit :=
  match dt with
  | Float64 => plt_do (FillBetween x y1 y2 color alpha edgecolor label)
  | Object => raise TypeError
  end.

Definition MEAN_COLOR : string := "#000000".
Definition FILL_COLOR : string := "#A6CEE3".

(** [disp_avg_HRF], from [plt.figure] to [plt.show], where [band] is the
    dtype of the two edges of the band.  The image is saved when
    [filepath_fig] is truthy: neither [None] nor the empty string. *)
Definition render_arrays (band : dtype) (l : locals) (title : string)
    (filepath_fig : option string) (show : bool)
    (y_lim : option (float64 * float64)) : IO unit :=
  plt_do (Figure 8%float 5%float) ;;;
  lower <- np_binop PrimFloat.sub (ts_mean l) (std_avg_across_channels l) ;;
  upper <- np_binop PrimFloat.add (ts_mean l) (std_avg_across_channels l) ;;
  x <- np_get (t l) ;;
  y1 <- np_get lower ;;
  y2 <- np_get upper ;;
  plt_fill_between band x y1 y2 FILL_COLOR 0.6%float "none" "Mean $\pm$ 1 SD" ;;;
  x <- np_get (t l) ;;
  y <- np_get (ts_mean l) ;;
  plt_do (Plot x y MEAN_COLOR 2.5%float 3 "Mean HRF") ;;;
  match y_lim with
  | Some (lo, hi) => plt_do (Ylim lo hi)
  | None => ret tt
  end ;;;
  plt_do (Axhline 0%float "gray" "--" 0.8%float) ;;;
  plt_do (Title title 14) ;;;
  plt_do (Xlabel "Time (s)" 14) ;;;
  plt_do (Ylabel "Concentration Change ($\mu$M)" 14) ;;;
  plt_do (Legend false 14) ;;;
  plt_do (TickParams "in") ;;;
  plt_do TightLayout ;;;
  match filepath_fig with
  | Some (String c path) => plt_do (Savefig (String c path) 300)
  | Some EmptyString | None => ret tt
  end ;;;
  if show then plt_do Show else ret tt.

(** The plotting part of [disp_avg_HRF] on float64 arrays. *)
Definition render_HRF (l : locals) (title : string) (filepath_fig : option string)
    (show : bool) (y_lim : option (float64 * float64)) : IO unit :=
  render_arrays Float64 l title filepath_fig show y_lim.

(** [disp_avg_HRF(filepath, title, filepath_fig, show, y_lim)].  The two
    traces have the dtype of the matrices they are the means of, and the
    edges of the band that of their difference and sum. *)
Definition disp_avg_HRF (fs : filesystem) (filepath title : string)
    (filepath_fig : option string) (show : bool)
    (y_lim : option (float64 * float64)) : IO unit :=
  p <- parse_hrf_csv fs filepath ;;
  l <- reduce_arrays p ;;
  let band := result_type (values_dtype (fst p)) (values_dtype (snd p)) in
  render_arrays band l title filepath_fig show y_lim.

(** The array behind a reference in a state. *)
Definition deref (s : state) (r : ref) : ndarray1 := nth r (heap s) [].

(** ** The scenario table of the specification *)

Definition scenario_table : DataFrame :=
  {| index_len := 2;
     columns := [ ("ts_ch1", [1%float; 3%float]);
                  ("ts_ch2", [1%float; 5%float]);
                  ("std_ch1", [0%float; 0%float]);
                  ("std_ch2", [0%float; 2%float]) ] |}.

Definition scenario_fs : filesystem :=
  fun path => if String.eqb path "scenario.csv" then Some (Csv scenario_table) else None.

(** A table whose groups have different widths: three rows, two mean
    columns, no spread column. *)
Definition lopsided_table : DataFrame :=
  {| index_len := 3;
     columns := [ ("time", [0%float; 1%float; 2%float]);
                  ("ts_ch1", [1%float; 2%float; 3%float]);
                  ("ts_ch2", [3%float; 2%float; 1%float]) ] |}.

Definition lopsided_fs : filesystem :=
  fun path => if String.eqb path "lopsided.csv" then Some (Csv lopsided_table) else None.

(** A table of one row and a table whose header is its only line. *)
Definition single_row_table : DataFrame :=
  {| index_len := 1;
     columns := [ ("ts_ch1", [2%float]); ("std_ch1", [1%float]) ] |}.

Definition header_only_table : DataFrame :=
  {| index_len := 0;
     columns := [ ("ts_ch1", []); ("ts_ch2", []) ] |}.

Definition single_row_fs : filesystem :=
  fun path =>
    if String.eqb path "single_row.csv" then Some (Csv single_row_table)
    else if String.eqb path "header_only.csv" then Some (Csv header_only_table)
    else None.




(** The store and the local names of [disp_avg_HRF] on the scenario table,
    at the point where rendering starts. *)
Definition scenario_state : state :=
  {| heap := [ [1%float; 4%float]; [0%float; 1%float]; [0%float; 20%float] ];
     plt := [];
     trace := [] |}.

Definition scenario_locals : locals :=
  {| ts_mean := 0; std_avg_across_channels := 1; num_timepoints := 2; t := 2 |}.

(** [UNIVERSAL_Y_SCALE] of the driver loop. *)
Definition UNIVERSAL_Y_SCALE : float64 * float64 :=
  ((-4.5e-05)%float, 4.5e-05%float).

(** One row whose three channels are 1, 1e16 and -1e16, in two column
    orders. *)
Definition order_a_table : DataFrame :=
  {| index_len := 1;
     columns := [ ("ts_ch1", [1%float]); ("ts_ch2", [1e16%float]);
                  ("ts_ch3", [(-1e16)%float]) ] |}.

Definition order_b_table : DataFrame :=
  {| index_len := 1;
     columns := [ ("ts_ch2", [1e16%float]); ("ts_ch3", [(-1e16)%float]);
                  ("ts_ch1", [1%float]) ] |}.

(** The mean group of the scenario table, and the same with its two columns
    exchanged. *)
Definition scenario_ts_table : DataFrame :=
  {| index_len := 2;
     columns := [ ("ts_ch1", [1%float; 3%float]); ("ts_ch2", [1%float; 5%float]) ] |}.

Definition scenario_ts_swapped : DataFrame :=
  {| index_len := 2;
     columns := [ ("ts_ch2", [1%float; 5%float]); ("ts_ch1", [1%float; 3%float]) ] |}.

(** One row whose three channels all hold 0.1, and matrices of one and two
    channels whose rows hold equal values. *)
Definition tenths_matrix : ndarray2 :=
  {| shape := (1, 3); rows := [ [0.1%float; 0.1%float; 0.1%float] ] |}.

Definition equal_pairs_matrix : ndarray2 :=
  {| shape := (2, 2); rows := [ [0.1%float; 0.1%float]; [3%float; 3%float] ] |}.

(** ** Words of the specification *)

(** [sub] occurs in [s]: some text, then [sub], then some text. *)
Definition occurs (sub s : string) : Prop :=
  exists pre post, s = (pre ++ sub ++ post)%string.

(** The state after a run differs from the state before by the events
    [evs] only. *)
Definition only_emits (s s' : state) (evs : list event) : Prop :=
  heap s' = heap s /\ plt s' = plt s /\ trace s' = trace s ++ evs.

(** [sel] is what remains of [cols] when exactly the columns whose label has
    [like] inside are kept, in their order. *)
Inductive selects (like : string)
  : list (string * list float64) -> list (string * list float64) -> Prop :=
  | selects_nil : selects like [] []
  | selects_keep c cols sel :
      occurs like (fst c) -> selects like cols sel ->
      selects like (c :: cols) (c :: sel)
  | selects_skip c cols sel :
      ~ occurs like (fst c) -> selects like cols sel ->
      selects like (c :: cols) sel.

(** The figure of section 4.5: the band between mean - spread and
    mean + spread, the mean line above it, the optional fixed y range, the
    zero line, title, labels and legend, then the optional image file and
    the optional display. *)
Definition figure_description (x mean spread : ndarray1) (title : string)
    (filepath_fig : option string) (show : bool)
    (y_lim : option (float64 * float64)) : list plt_call :=
  [ Figure 8%float 5%float;
    FillBetween x (zip_with PrimFloat.sub mean spread)
                (zip_with PrimFloat.add mean spread)
                FILL_COLOR 0.6%float "none" "Mean $\pm$ 1 SD";
    Plot x mean MEAN_COLOR 2.5%float 3 "Mean HRF" ] ++
  match y_lim with Some (lo, hi) => [Ylim lo hi] | None => [] end ++
  [ Axhline 0%float "gray" "--" 0.8%float;
    Title title 14;
    Xlabel "Time (s)" 14;
    Ylabel "Concentration Change ($\mu$M)" 14;
    Legend false 14;
    TickParams "in";
    TightLayout ] ++
  match filepath_fig with
  | Some (String c path) => [Savefig (String c path) 300]
  | Some EmptyString | None => []
  end ++
  (if show then [Show] else []).

(** A computation only ever adds arrays to the store: what was there stays
    where it was, and nothing is read from or written to the file system. *)
Definition store_preserving {A} (m : IO A) : Prop :=
  forall s, exists new,
    heap (snd (m s)) = heap s ++ new /\ trace (snd (m s)) = trace s.

(** ** The module-level code and the dictionary loader *)

(** Python's [s.replace(old, new)] for a non-empty [old]: the occurrences of
    [old] are taken from the left without overlap; [skip] counts the
    characters of the occurrence being replaced that are still to pass. *)
Fixpoint replace_from (old new : string) (skip : nat) (s : string) : string :=
  match s with
  | EmptyString => EmptyString
  | String c s' =>
      match skip with
      | S k => replace_from old new k s'
      | O =>
          if startswith old (String c s')
          then (new ++ replace_from old new (String.length old - 1) s')%string
          else String c (replace_from old new 0 s')
      end
  end.

(** With an empty [old], [new] goes before every character and at the end. *)
Fixpoint replace_empty (new s : string) : string :=
  match s with
  | EmptyString => new
  | String c s' => (new ++ String c (replace_empty new s'))%string
  end.

Definition str_replace (old new s : string) : string :=
  match old with
  | EmptyString => replace_empty new s
  | String _ _ => replace_from old new 0 s
  end.

(** [s.endswith("/")]. *)
Fixpoint ends_with_slash (s : string) : bool :=
  match s with
  | EmptyString => false
  | String c EmptyString => Ascii.eqb c "/"
  | String _ s' => ends_with_slash s'
  end.

(** [os.path.join(a, b)] on a POSIX system. *)
Definition os_path_join (a b : string) : string :=
  if startswith "/" b then b
  else if (match a with EmptyString => true | _ => false end) || ends_with_slash a
       then (a ++ b)%string
       else (a ++ "/" ++ b)%string.

(** A Python [dict] with string keys: the items in insertion order, each key
    once. *)
Definition dict (V : Type) : Type := list (string * V).

Fixpoint dict_get {V} (k : string) (d : dict V) : option V :=
  match d with
  | [] => None
  | (k', v) :: d' => if String.eqb k k' then Some v else dict_get k d'
  end.

(** [d[k] = v]: the value of an existing key is replaced where it stands, a
    new key goes to the end. *)
Fixpoint dict_set {V} (k : string) (v : V) (d : dict V) : dict V :=
  match d with
  | [] => [(k, v)]
  | (k', v') :: d' =>
      if String.eqb k k' then (k, v) :: d' else (k', v') :: dict_set k v d'
  end.

Definition dict_keys {V} (d : dict V) : list string := map fst d.

(** What ends a run of module-level code: an exception of the pipeline, a
    [KeyError], or the [SystemExit] of [exit()]. *)
Inductive script_exn : Set :=
  | PyExn (e : exn)
  | KeyError (key : string)
  | SystemExit.

(** The lines printed outside [parse_hrf_csv].  [Searching base_path] stands
    for the line that shows [os.path.abspath(base_path)], whose text depends
    on the working directory. *)
Inductive line : Set :=
  | Processing (file figure_filename : string)
  | Searching (base_path : string)
  | Loaded (filename : string)
  | WarnNotFound (full_path : string)
  | ErrorLoading (filename : string) (e : script_exn)
  | PreviewHeader
  | PreviewHead (head : DataFrame)
  | TsColumnCount (n : nat)
  | StdColumnCount (n : nat).

(** The state of a run of the module: the state of the pipeline, and the
    lines printed so far, each with the number of trace events that came
    before it. *)
Record session : Set := mk_session {
  core : state;
  console : list (nat * line)
}.

Inductive outcome (A : Type) : Type :=
  | Done (a : A)
  | Failed (e : script_exn).

Arguments Done {A} a.
Arguments Failed {A} e.

Definition Script (A : Type) : Type := session -> outcome A * session.

Definition sret {A} (a : A) : Script A := fun r => (Done a, r).

Definition fail {A} (e : script_exn) : Script A := fun r => (Failed e, r).

Definition sbind {A B} (m : Script A) (k : A -> Script B) : Script B :=
  fun r =>
    match m r with
    | (Done a, r') => k a r'
    | (Failed e, r') => (Failed e, r')
    end.

Notation "x <~ m ;; k" := (sbind m (fun x => k))
  (at level 61, m at next level, right associativity).
Notation "m ;~ k" := (sbind m (fun _ => k))
  (at level 61, right associativity).

(** A computation of the pipeline run inside the module. *)
Definition lift {A} (m : IO A) : Script A :=
  fun r =>
    match m (core r) with
    | (Ok a, s') => (Done a, {| core := s'; console := console r |})
    | (Raise e, s') => (Failed (PyExn e), {| core := s'; console := console r |})
    end.

(** [print(...)]. *)
Definition say (l : line) : Script unit :=
  fun r => (Done tt,
            {| core := core r;
               console := console r ++ [(length (trace (core r)), l)] |}).

(** [try: body except FileNotFoundError: on_missing except Exception as e:
    on_error(e)]; [SystemExit] is no [Exception] and passes through. *)
Definition try_except {A} (body : Script A) (on_missing : Script A)
    (on_error : script_exn -> Script A) : Script A :=
  fun r =>
    match body r with
    | (Done a, r') => (Done a, r')
    | (Failed (PyExn (FileNotFoundError _)), r') => on_missing r'
    | (Failed (PyExn (NoSuchFile _)), r') => on_missing r'
    | (Failed SystemExit, r') => (Failed SystemExit, r')
    | (Failed e, r') => on_error e r'
    end.

(** [for x in items: body(x)]. *)
Fixpoint for_each {A} (items : list A) (body : A -> Script unit) : Script unit :=
  match items with
  | [] => sret tt
  | x :: rest => body x ;~ for_each rest body
  end.

Definition files : list string :=
  [ "before_hrf_hbo.csv"; "before_hrf_hbr.csv"; "before_hrf_hbt.csv";
    "after_hrf_hbo.csv"; "after_hrf_hbr.csv"; "after_hrf_hbt.csv" ].

Definition names : list string :=
  [ "Before NO - HbO"; "Before NO - HbR"; "Before NO - HbT";
    "After NO - HbO"; "After NO - HbR"; "After NO - HbT" ].

(** The body of the loop over [zip(files, names)]. *)
Definition plot_file (fs : filesystem) (item : string * string) : Script unit :=
  let '(file, name) := item in
  let figure_filename := str_replace ".csv" ".png" file in
  say (Processing file figure_filename) ;~
  lift (disp_avg_HRF fs file name (Some figure_filename) true
          (Some UNIVERSAL_Y_SCALE)).

Definition plot_all_files (fs : filesystem) : Script unit :=
  for_each (combine files names) (plot_file fs).

(** [exit()]. *)
Definition sys_exit : Script unit := fail SystemExit.

(** The module from its first statement to [exit()], followed by whatever
    the file holds after it. *)
Definition module_body (fs : filesystem) (after_exit : Script unit) : Script unit :=
  plot_all_files fs ;~
  lift (disp_avg_HRF fs "before_hrf_hbo.csv" "Before NO - HbO HRF" None true None) ;~
  sys_exit ;~
  after_exit.

(** [hrf_data[condition][sp] = df] on the nested dictionary. *)
Definition set_nested (condition sp : string) (df : DataFrame)
    (hrf_data : dict (dict DataFrame)) : Script (dict (dict DataFrame)) :=
  match dict_get condition hrf_data with
  | Some inner => sret (dict_set condition (dict_set sp df inner) hrf_data)
  | None => fail (KeyError condition)
  end.

(** One turn of the inner loop of [load_nirs_hrf_data]. *)
Definition load_one (fs : filesystem) (base_path condition sp : string)
    (hrf_data : dict (dict DataFrame)) : Script (dict (dict DataFrame)) :=
  let filename := (condition ++ "_hrf_" ++ sp ++ ".csv")%string in
  let full_path := os_path_join base_path filename in
  try_except
    (df <~ lift (pd_read_csv fs full_path) ;;
     hrf_data' <~ set_nested condition sp df hrf_data ;;
     say (Loaded filename) ;~
     sret hrf_data')
    (say (WarnNotFound full_path) ;~ sret hrf_data)
    (fun e => say (ErrorLoading filename e) ;~ sret hrf_data).

(** A loop that carries the dictionary from turn to turn. *)
Fixpoint fold_script {A B} (items : list A) (body : A -> B -> Script B) (acc : B)
  : Script B :=
  match items with
  | [] => sret acc
  | x :: rest => acc' <~ body x acc ;; fold_script rest body acc'
  end.

Definition conditions : list string := [ "before"; "after" ].
Definition species : list string := [ "hbo"; "hbr"; "hbt" ].

(** [load_nirs_hrf_data(base_path)]. *)
Definition load_nirs_hrf_data (fs : filesystem) (base_path : string)
  : Script (dict (dict DataFrame)) :=
  say (Searching base_path) ;~
  fold_script conditions
    (fun condition hrf_data =>
       let hrf_data := dict_set condition [] hrf_data in
       fold_script species (load_one fs base_path condition) hrf_data)
    [].

(** [d[k]] on a dictionary: the value, or [KeyError]. *)
Definition dict_item {V} (k : string) (d : dict V) : Script V :=
  match dict_get k d with
  | Some v => sret v
  | None => fail (KeyError k)
  end.

(** [k in d] and the truth value of a dictionary. *)
Definition dict_has {V} (k : string) (d : dict V) : bool :=
  match dict_get k d with Some _ => true | None => false end.

Definition dict_truthy {V} (d : dict V) : bool :=
  match d with [] => false | _ :: _ => true end.

(** [df.head()]: the first five rows. *)
Definition df_head (df : DataFrame) : DataFrame :=
  {| index_len := Nat.min 5 (index_len df);
     columns := map (fun c => (fst c, firstn 5 (snd c))) (columns df) |}.

(** [a.T] of a two-dimensional array. *)
Definition transpose (a : ndarray2) : ndarray2 :=
  {| shape := (snd (shape a), fst (shape a));
     rows := map (fun j => map (fun r => nth j r PrimFloat.nan) (rows a))
                 (seq 0 (snd (shape a))) |}.

(** [np.mean(a, axis=0)] of an array in memory order [o]: the sum over the
    rows of each column divided by the number of rows. *)
Definition np_mean_axis0 (o : order) (a : ndarray2) : ndarray1 :=
  let rcount := fst (shape a) in
  let sum := if inner_axis0 o (shape a) then add_reduce_inner else add_reduce in
  map (fun j =>
         PrimFloat.div (sum (map (fun r => nth j r PrimFloat.nan) (rows a)))
                       (float_of_nat rcount))
      (seq 0 (snd (shape a))).

(** [np.mean(a, axis=0)] where the program calls it: on the transpose of
    the [values] of a table, which is in C order. *)
Definition mean_axis0 (a : ndarray2) : ndarray1 := np_mean_axis0 C_order a.

(** The module after [exit()], from the call of the dictionary loader to
    the two means of the "after" HbO table (the plot that follows them is
    left out). *)
Definition module_tail (fs : filesystem) : Script (ndarray1 * ndarray1) :=
  nirs_data <~ load_nirs_hrf_data fs "./" ;;
  (if dict_truthy nirs_data && dict_has "before" nirs_data &&
      match dict_get "before" nirs_data with
      | Some before => dict_has "hbo" before
      | None => false
      end
   then
     before <~ dict_item "before" nirs_data ;;
     before_hbo_df <~ dict_item "hbo" before ;;
     say PreviewHeader ;~
     say (PreviewHead (df_head before_hbo_df)) ;~
     let ts_data := filter_like "ts_ch" before_hbo_df in
     let std_data := filter_like "std_ch" before_hbo_df in
     say (TsColumnCount (snd (shape (values ts_data)))) ;~
     say (StdColumnCount (snd (shape (values std_data))))
   else sret tt) ;~
  after <~ dict_item "after" nirs_data ;;
  df_hbo_after <~ dict_item "hbo" after ;;
  let df_hbo_after_ts := filter_like "ts_ch" df_hbo_after in
  let df_hbo_after_std := filter_like "std_ch" df_hbo_after in
  let hbo_after_ts := transpose (values df_hbo_after_ts) in
  let hbo_after_std := transpose (values df_hbo_after_std) in
  let hbo_after_ts_mean := mean_axis0 hbo_after_ts in
  let hbo_after_std_mean := mean_axis0 hbo_after_std in
  sret (hbo_after_ts_mean, hbo_after_std_mean).

(** A file system that holds the six tables of the driver, each a copy of
    the scenario table. *)
Definition six_files_fs : filesystem :=
  fun path => if existsb (String.eqb path) files then Some (Csv scenario_table) else None.

(** A file system in which the third file of the driver is missing and the
    fifth is not a table. *)
Definition gappy_fs : filesystem :=
  fun path =>
    if String.eqb path "before_hrf_hbt.csv" then None
    else if String.eqb path "after_hrf_hbr.csv" then Some (Malformed ParserError)
    else if existsb (String.eqb path) files then Some (Csv scenario_table)
    else None.

Definition initial_session : session :=
  {| core := initial_state; console := [] |}.

(** The figure [disp_avg_HRF] draws for a table. *)
Definition figure_of_table (df : DataFrame) (title : string)
    (filepath_fig : option string) (show : bool)
    (y_lim : option (float64 * float64)) : list plt_call :=
  figure_description
    (linspace 0%float 20%float (index_len df))
    (mean_axis1 (values (filter_like "ts_ch" df)))
    (mean_axis1 (values (filter_like "std_ch" df)))
    title filepath_fig show y_lim.

(** The accesses [parse_hrf_csv] makes for a table stored under [path]. *)
Definition events_of_table (path : string) (df : DataFrame) : list event :=
  [ PathExists path; ReadCsv path;
    PrintParsed (basename path)
      (shape (values (filter_like "ts_ch" df)))
      (shape (values (filter_like "std_ch" df))) ].

(** The arrays [disp_avg_HRF] allocates for a table: the two traces, the time
    vector, and the two edges of the band. *)
Definition arrays_of_table (df : DataFrame) : list ndarray1 :=
  let m := mean_axis1 (values (filter_like "ts_ch" df)) in
  let sd := mean_axis1 (values (filter_like "std_ch" df)) in
  [ m; sd; linspace 0%float 20%float (index_len df);
    zip_with PrimFloat.sub m sd; zip_with PrimFloat.add m sd ].

(** A group in which one cell of the second row is NaN. *)
Definition gap_table : DataFrame :=
  {| index_len := 2;
     columns := [ ("ts_ch1", [1%float; 3%float]);
                  ("ts_ch2", [1%float; PrimFloat.nan]);
                  ("ts_ch3", [1%float; 5%float]) ] |}.

(** The table stored under a path (the empty table when there is none). *)
Definition table_at (fs : filesystem) (path : string) : DataFrame :=
  match fs path with
  | Some (Csv df) => df
  | _ => {| index_len := 0; columns := [] |}
  end.

Definition holds_table (fs : filesystem) (path : string) : Prop :=
  exists df, fs path = Some (Csv df).

(** A path that holds a table with at least one row. *)
Definition holds_rows (fs : filesystem) (path : string) : Prop :=
  exists df, fs path = Some (Csv df) /\ index_len df <> 0.

(** The dtype of the two edges of the band [disp_avg_HRF] draws for a
    table. *)
Definition band_dtype (df : DataFrame) : dtype :=
  result_type (values_dtype (values (filter_like "ts_ch" df)))
              (values_dtype (values (filter_like "std_ch" df))).

(** A path that holds a table whose band pyplot accepts. *)
Definition drawable (fs : filesystem) (path : string) : Prop :=
  exists df, fs path = Some (Csv df) /\ band_dtype df = Float64.

(** One row of eight channels whose pairwise sum is 4 and whose sum taken
    channel after channel is 5; the same values as one row out of two. *)
Definition wide_row : list float64 :=
  [ 1%float; 1e16%float; (-1e16)%float; 1%float;
    1%float; 1%float; 1%float; 1%float ].

Definition wide_row_matrix : ndarray2 :=
  {| shape := (1, 8); rows := [ wide_row ] |}.

Definition wide_rows_matrix : ndarray2 :=
  {| shape := (2, 8); rows := [ wide_row; wide_row ] |}.

(** The paths of the images a sequence of pyplot calls writes, in order. *)
Definition saved_paths (calls : list plt_call) : list string :=
  flat_map (fun c => match c with Savefig p _ => [p] | _ => [] end) calls.

(** What the loop over the files draws, accesses and prints for the items it
    gets through. *)
Definition driver_figure (fs : filesystem) (item : string * string) : list plt_call :=
  figure_of_table (table_at fs (fst item)) (snd item)
    (Some (str_replace ".csv" ".png" (fst item))) true (Some UNIVERSAL_Y_SCALE).

Definition driver_events (fs : filesystem) (item : string * string) : list event :=
  events_of_table (fst item) (table_at fs (fst item)).

Definition driver_line (item : string * string) : line :=
  Processing (fst item) (str_replace ".csv" ".png" (fst item)).

(** The file [load_nirs_hrf_data] reads for a condition and a species, and
    its path under [base_path]. *)
Definition data_file (condition sp : string) : string :=
  (condition ++ "_hrf_" ++ sp ++ ".csv")%string.

Definition data_path (base_path condition sp : string) : string :=
  os_path_join base_path (data_file condition sp).

(** The line [load_nirs_hrf_data] prints for one file. *)
Definition load_line (fs : filesystem) (base_path condition sp : string) : line :=
  match fs (data_path base_path condition sp) with
  | Some (Csv _) => Loaded (data_file condition sp)
  | Some (Malformed e) => ErrorLoading (data_file condition sp) (PyExn (ReadCsvError e))
  | None => WarnNotFound (data_path base_path condition sp)
  end.

(** Lines with the number of trace events before each, when one event
    separates a line from the next. *)
Definition stamp_lines (start : nat) (ls : list line) : list (nat * line) :=
  combine (seq start (length ls)) ls.

(** [hrf_data[condition][sp]], when both keys are there. *)
Definition lookup2 (condition sp : string) (hrf_data : dict (dict DataFrame))
  : option DataFrame :=
  match dict_get condition hrf_data with
  | Some inner => dict_get sp inner
  | None => None
  end.

(** The dictionary after one file: the table is stored when the file holds
    one, nothing changes otherwise. *)
Definition store_table (condition sp : string) (f : option file)
    (hrf_data : dict (dict DataFrame)) : dict (dict DataFrame) :=
  match f, dict_get condition hrf_data with
  | Some (Csv df), Some inner => dict_set condition (dict_set sp df inner) hrf_data
  | _, _ => hrf_data
  end.

Definition all_pairs : list (string * string) :=
  flat_map (fun condition => map (fun sp => (condition, sp)) species) conditions.

(** The dictionary [load_nirs_hrf_data] returns. *)
Definition loaded_dict (fs : filesystem) (base_path : string)
  : dict (dict DataFrame) :=
  fold_left
    (fun h condition =>
       fold_left
         (fun h sp => store_table condition sp (fs (data_path base_path condition sp)) h)
         species (dict_set condition [] h))
    conditions [].

(** * Strings *)

Lemma startswith_spec (p s : string) :
  startswith p s = true <-> exists post, s = (p ++ post)%string.
Proof.
  revert s; induction p as [|a p IH]; intros s; simpl.
  - split; [intros _; now exists s | reflexivity].
  - destruct s as [|b s].
    + split; [discriminate | intros [post H]; discriminate].
    + rewrite andb_true_iff, Ascii.eqb_eq, IH. split.
      * intros [-> [post ->]]. now exists post.
      * intros [post H]. injection H as -> ->. split; [reflexivity | now exists post].
Qed.

Lemma str_contains_spec (sub s : string) :
  str_contains sub s = true <-> occurs sub s.
Proof.
  unfold occurs. induction s as [|c s IH].
  - simpl. rewrite orb_false_r, startswith_spec. split.
    + intros [post H]. exists EmptyString, post. exact H.
    + intros [pre [post H]]. destruct pre; [now exists post | discriminate].
  - cbn [str_contains]. rewrite orb_true_iff, startswith_spec, IH. split.
    + intros [[post H] | [pre [post H]]].
      * exists EmptyString, post. exact H.
      * exists (String c pre), post. simpl. now rewrite H.
    + intros [pre [post H]]. destruct pre as [|d pre].
      * left. now exists post.
      * right. simpl in H. injection H as _ H. now exists pre, post.
Qed.

(** * The loader *)

Lemma parse_hrf_csv_missing (fs : filesystem) (path : string) (s : state) :
  fs path = None ->
  parse_hrf_csv fs path s =
    (Raise (FileNotFoundError ("Error: File not found at " ++ path)),
     {| heap := heap s; plt := plt s; trace := trace s ++ [PathExists path] |}).
Proof.
  intros H. unfold parse_hrf_csv, bind, os_path_exists, emit, ret, raise.
  rewrite H. reflexivity.
Qed.

Lemma parse_hrf_csv_malformed (fs : filesystem) (path : string) (e : parse_failure)
    (s : state) :
  fs path = Some (Malformed e) ->
  parse_hrf_csv fs path s =
    (Raise (ReadCsvError e),
     {| heap := heap s; plt := plt s;
        trace := trace s ++ [PathExists path; ReadCsv path] |}).
Proof.
  intros H.
  unfold parse_hrf_csv, bind, os_path_exists, pd_read_csv, emit, ret, raise.
  rewrite H. simpl. rewrite <- app_assoc. reflexivity.
Qed.

Lemma parse_hrf_csv_table (fs : filesystem) (path : string) (df : DataFrame)
    (s : state) :
  fs path = Some (Csv df) ->
  parse_hrf_csv fs path s =
    (Ok (values (filter_like "ts_ch" df), values (filter_like "std_ch" df)),
     {| heap := heap s; plt := plt s;
        trace := trace s ++
          [PathExists path; ReadCsv path;
           PrintParsed (basename path)
             (shape (values (filter_like "ts_ch" df)))
             (shape (values (filter_like "std_ch" df)))] |}).
Proof.
  intros H.
  unfold parse_hrf_csv, bind, os_path_exists, pd_read_csv, emit, ret, raise.
  rewrite H. simpl. rewrite <- !app_assoc. reflexivity.
Qed.

Lemma rows_values_length (df : DataFrame) :
  length (rows (values df)) = index_len df.
Proof. unfold values; simpl. now rewrite length_map, length_seq. Qed.

Lemma values_shape_ok (df : DataFrame) : shape_ok (values df).
Proof.
  split.
  - apply rows_values_length.
  - unfold values; simpl. apply Forall_forall. intros r Hr.
    apply in_map_iff in Hr. destruct Hr as [i [<- _]]. apply length_map.
Qed.

Lemma mean_axis1_length (a : ndarray2) :
  length (mean_axis1 a) = length (rows a).
Proof. unfold mean_axis1. apply length_map. Qed.

Lemma filter_like_selects (like : string) (cols : list (string * list float64)) :
  selects like cols (filter (fun c => str_contains like (fst c)) cols).
Proof.
  induction cols as [|c cols IH]; simpl.
  - constructor.
  - destruct (str_contains like (fst c)) eqn:E.
    + apply selects_keep; [now apply str_contains_spec | exact IH].
    + apply selects_skip; [| exact IH].
      intros H. apply str_contains_spec in H. congruence.
Qed.

Lemma selects_functional (like : string) (cols sel1 sel2 : list (string * list float64)) :
  selects like cols sel1 -> selects like cols sel2 -> sel1 = sel2.
Proof.
  intros H1; revert sel2.
  induction H1 as [|c cols sel Hc _ IH|c cols sel Hc _ IH]; intros sel2 H2;
    inversion H2; subst; try contradiction.
  - reflexivity.
  - f_equal. now apply IH.
  - now apply IH.
Qed.

Lemma selects_none (like : string) (cols : list (string * list float64)) :
  (forall c, In c cols -> ~ occurs like (fst c)) -> selects like cols [].
Proof.
  induction cols as [|c cols IH]; intros H.
  - constructor.
  - apply selects_skip.
    + apply H. now left.
    + apply IH. intros c' Hc'. apply H. now right.
Qed.

(** * The reducer and the time vector *)

Lemma reduce_HRF_table (fs : filesystem) (path : string) (df : DataFrame)
    (s : state) :
  fs path = Some (Csv df) ->
  reduce_HRF fs path s =
    (Ok {| ts_mean := length (heap s);
           std_avg_across_channels := S (length (heap s));
           num_timepoints := index_len df;
           t := S (S (length (heap s))) |},
     {| heap := heap s ++
          [mean_axis1 (values (filter_like "ts_ch" df));
           mean_axis1 (values (filter_like "std_ch" df));
           linspace 0%float 20%float (index_len df)];
        plt := plt s;
        trace := trace s ++
          [PathExists path; ReadCsv path;
           PrintParsed (basename path)
             (shape (values (filter_like "ts_ch" df)))
             (shape (values (filter_like "std_ch" df)))] |}).
Proof.
  intros H. unfold reduce_HRF, bind at 1.
  rewrite (parse_hrf_csv_table _ _ _ _ H).
  unfold reduce_arrays, bind, np_new, ret. simpl.
  rewrite !length_app, <- !app_assoc. simpl.
  now rewrite !Nat.add_1_r.
Qed.

Lemma reduce_HRF_missing (fs : filesystem) (path : string) (s : state) :
  fs path = None ->
  exists s', reduce_HRF fs path s =
    (Raise (FileNotFoundError ("Error: File not found at " ++ path)), s').
Proof.
  intros H. unfold reduce_HRF, bind at 1.
  rewrite (parse_hrf_csv_missing _ _ _ H). eauto.
Qed.

Lemma nth_past (h : list ndarray1) (k : nat) (new : list ndarray1) :
  nth (length h + k) (h ++ new) [] = nth k new [].
Proof.
  rewrite app_nth2 by lia. f_equal. lia.
Qed.

Lemma nth_kept (h new : list ndarray1) (r : nat) :
  r < length h -> nth r (h ++ new) [] = nth r h [].
Proof. intros H. now apply app_nth1. Qed.

(** The three arrays [reduce_HRF] leaves behind its local names. *)
Lemma reduce_HRF_arrays (fs : filesystem) (path : string) (df : DataFrame)
    (s : state) :
  fs path = Some (Csv df) ->
  exists l s',
    reduce_HRF fs path s = (Ok l, s') /\
    deref s' (ts_mean l) = mean_axis1 (values (filter_like "ts_ch" df)) /\
    deref s' (std_avg_across_channels l) =
      mean_axis1 (values (filter_like "std_ch" df)) /\
    num_timepoints l = index_len df /\
    deref s' (t l) = linspace 0%float 20%float (index_len df) /\
    (forall r, r < length (heap s) -> deref s' r = deref s r).
Proof.
  intros H. eexists; eexists. split; [apply reduce_HRF_table, H |].
  unfold deref; simpl.
  pose proof (nth_past (heap s) 0) as H0.
  pose proof (nth_past (heap s) 1) as H1.
  pose proof (nth_past (heap s) 2) as H2.
  rewrite Nat.add_0_r in H0.
  replace (length (heap s) + 1) with (S (length (heap s))) in H1 by lia.
  replace (length (heap s) + 2) with (S (S (length (heap s)))) in H2 by lia.
  rewrite H0, H1, H2. simpl.
  repeat split; try reflexivity.
  intros r Hr. now apply nth_kept.
Qed.

(** * Claims about the loader *)

(** C2: a path that does not exist makes [parse_hrf_csv] raise
    [FileNotFoundError] after the existence test alone, [pd.read_csv] is never
    called; malformed content of an existing file raises the reader's own
    error, which is a different exception. *)
Theorem missing_file_raises_before_read
    (fs : filesystem) (path : string) (s : state) (Hmissing : fs path = None) :
  (exists s',
     parse_hrf_csv fs path s =
       (Raise (FileNotFoundError ("Error: File not found at " ++ path)), s') /\
     only_emits s s' [PathExists path] /\
     (forall p, In (ReadCsv p) (trace s') -> In (ReadCsv p) (trace s))) /\
  (forall fs2 path2 e s2, fs2 path2 = Some (Malformed e) ->
     exists s2',
       parse_hrf_csv fs2 path2 s2 = (Raise (ReadCsvError e), s2') /\
       In (ReadCsv path2) (trace s2') /\
       forall msg, ReadCsvError e <> FileNotFoundError msg).
Proof.
  split.
  - eexists. split; [apply parse_hrf_csv_missing, Hmissing |].
    split; [now repeat split |].
    simpl. intros p H. apply in_app_or in H. destruct H as [H | [H | []]].
    + exact H.
    + discriminate H.
  - intros fs2 path2 e s2 H. eexists.
    split; [apply parse_hrf_csv_malformed, H |]. split.
    + simpl. apply in_or_app. right. simpl. auto.
    + intros msg. discriminate.
Qed.

Lemma missing_file_raises_before_read_witness :
  (exists s',
     parse_hrf_csv scenario_fs "absent.csv" initial_state =
       (Raise (FileNotFoundError "Error: File not found at absent.csv"), s') /\
     only_emits initial_state s' [PathExists "absent.csv"] /\
     (forall p, In (ReadCsv p) (trace s') -> In (ReadCsv p) (trace initial_state))) /\
  (forall fs2 path2 e s2, fs2 path2 = Some (Malformed e) ->
     exists s2',
       parse_hrf_csv fs2 path2 s2 = (Raise (ReadCsvError e), s2') /\
       In (ReadCsv path2) (trace s2') /\
       forall msg, ReadCsvError e <> FileNotFoundError msg).
Proof.
  apply (missing_file_raises_before_read scenario_fs "absent.csv" initial_state).
  reflexivity.
Defined.

(** C4: on a loaded table the mean group is made of exactly the columns whose
    label has "ts_ch" inside and the spread group of exactly those with
    "std_ch" inside, matched letter for letter and kept in table order; the
    other columns are dropped, and a group nothing matches is returned as a
    matrix with the table's rows and no columns, without an error. *)
Theorem splitter_selects_by_substring
    (fs : filesystem) (path : string) (df : DataFrame) (s : state)
    (Hfile : fs path = Some (Csv df)) :
  exists ts_cols std_cols s',
    parse_hrf_csv fs path s =
      (Ok (values {| index_len := index_len df; columns := ts_cols |},
           values {| index_len := index_len df; columns := std_cols |}), s') /\
    selects "ts_ch" (columns df) ts_cols /\
    selects "std_ch" (columns df) std_cols /\
    ((forall c, In c (columns df) -> ~ occurs "ts_ch" (fst c)) ->
       ts_cols = [] /\
       values {| index_len := index_len df; columns := ts_cols |} =
         {| shape := (index_len df, 0); rows := repeat [] (index_len df) |}) /\
    ((forall c, In c (columns df) -> ~ occurs "std_ch" (fst c)) ->
       std_cols = [] /\
       values {| index_len := index_len df; columns := std_cols |} =
         {| shape := (index_len df, 0); rows := repeat [] (index_len df) |}) /\
    ~ occurs "ts_ch" "TS_CH1" /\ ~ occurs "std_ch" "STD_ch1".
Proof.
  assert (Hzero : forall n,
            values {| index_len := n; columns := [] |} =
              {| shape := (n, 0); rows := repeat [] n |}).
  { intros n. unfold values; simpl. f_equal.
    generalize 0. induction n as [|n IH]; intros k; simpl; [reflexivity |].
    now rewrite IH. }
  eexists; eexists; eexists.
  split; [apply parse_hrf_csv_table, Hfile |].
  split; [apply filter_like_selects |].
  split; [apply filter_like_selects |].
  split; [| split; [| split]].
  - intros Hnone.
    assert (E : filter (fun c => str_contains "ts_ch" (fst c)) (columns df) = []).
    { eapply selects_functional; [apply filter_like_selects | now apply selects_none]. }
    rewrite E. split; [reflexivity | apply Hzero].
  - intros Hnone.
    assert (E : filter (fun c => str_contains "std_ch" (fst c)) (columns df) = []).
    { eapply selects_functional; [apply filter_like_selects | now apply selects_none]. }
    rewrite E. split; [reflexivity | apply Hzero].
  - intros H. apply str_contains_spec in H. discriminate.
  - intros H. apply str_contains_spec in H. discriminate.
Qed.

Lemma splitter_selects_by_substring_witness :
  exists ts_cols std_cols s',
    parse_hrf_csv scenario_fs "scenario.csv" initial_state =
      (Ok (values {| index_len := 2; columns := ts_cols |},
           values {| index_len := 2; columns := std_cols |}), s') /\
    selects "ts_ch" (columns scenario_table) ts_cols /\
    selects "std_ch" (columns scenario_table) std_cols.
Proof.
  destruct (splitter_selects_by_substring scenario_fs "scenario.csv"
              scenario_table initial_state eq_refl)
    as [ts_cols [std_cols [s' [H1 [H2 [H3 _]]]]]].
  exists ts_cols, std_cols, s'. auto.
Defined.

(** C10: whenever the file holds a table, the two matrices [parse_hrf_csv]
    returns both have as many rows as the table, whatever the widths of the
    two groups. *)
Theorem parsed_matrices_share_row_count
    (fs : filesystem) (path : string) (df : DataFrame) (s : state)
    (Hfile : fs path = Some (Csv df)) :
  exists ts_array std_array s',
    parse_hrf_csv fs path s = (Ok (ts_array, std_array), s') /\
    fst (shape ts_array) = index_len df /\
    fst (shape std_array) = index_len df /\
    length (rows ts_array) = index_len df /\
    length (rows std_array) = index_len df /\
    snd (shape ts_array) = length (columns (filter_like "ts_ch" df)) /\
    snd (shape std_array) = length (columns (filter_like "std_ch" df)).
Proof.
  eexists; eexists; eexists.
  split; [apply parse_hrf_csv_table, Hfile |].
  repeat split; try reflexivity;
    [exact (rows_values_length (filter_like "ts_ch" df))
    | exact (rows_values_length (filter_like "std_ch" df))].
Qed.

Lemma parsed_matrices_share_row_count_witness :
  exists ts_array std_array s',
    parse_hrf_csv lopsided_fs "lopsided.csv" initial_state =
      (Ok (ts_array, std_array), s') /\
    fst (shape ts_array) = 3 /\
    fst (shape std_array) = 3 /\
    length (rows ts_array) = 3 /\
    length (rows std_array) = 3 /\
    snd (shape ts_array) = 2 /\
    snd (shape std_array) = 0.
Proof.
  exact (parsed_matrices_share_row_count lopsided_fs "lopsided.csv"
           lopsided_table initial_state eq_refl).
Defined.

(** * The renderer *)

Lemma store_preserving_ret {A} (a : A) : store_preserving (ret a).
Proof. intros s. exists []. simpl. now rewrite app_nil_r. Qed.

Lemma store_preserving_raise {A} (e : exn) : store_preserving (@raise A e).
Proof. intros s. exists []. simpl. now rewrite app_nil_r. Qed.

Lemma store_preserving_plt_do (c : plt_call) : store_preserving (plt_do c).
Proof. intros s. exists []. simpl. now rewrite app_nil_r. Qed.

Lemma store_preserving_np_get (r : ref) : store_preserving (np_get r).
Proof. intros s. exists []. simpl. now rewrite app_nil_r. Qed.

Lemma store_preserving_np_new (a : ndarray1) : store_preserving (np_new a).
Proof. intros s. exists [a]. simpl. auto. Qed.

Lemma store_preserving_bind {A B} (m : IO A) (k : A -> IO B) :
  store_preserving m -> (forall a, store_preserving (k a)) ->
  store_preserving (bind m k).
Proof.
  intros Hm Hk s. unfold bind.
  destruct (Hm s) as [new1 [H1 T1]].
  destruct (m s) as [[a | e] s1]; simpl in *.
  - destruct (Hk a s1) as [new2 [H2 T2]].
    exists (new1 ++ new2). rewrite H2, H1, T2, T1, app_assoc. auto.
  - exists new1. auto.
Qed.

Lemma store_preserving_np_binop (f : float64 -> float64 -> float64) (ra rb : ref) :
  store_preserving (np_binop f ra rb).
Proof.
  unfold np_binop.
  apply store_preserving_bind; [apply store_preserving_np_get | intros a].
  apply store_preserving_bind; [apply store_preserving_np_get | intros b].
  destruct (broadcast f a b);
    [apply store_preserving_np_new | apply store_preserving_raise].
Qed.

Lemma store_preserving_plt_fill_between (dt : dtype) (x y1 y2 : ndarray1)
    (color : string) (alpha : float64) (edgecolor label : string) :
  store_preserving (plt_fill_between dt x y1 y2 color alpha edgecolor label).
Proof.
  destruct dt; [apply store_preserving_plt_do | apply store_preserving_raise].
Qed.

Create HintDb store.

#[local] Hint Resolve store_preserving_ret store_preserving_raise
  store_preserving_plt_do store_preserving_np_get store_preserving_np_new
  store_preserving_np_binop store_preserving_plt_fill_between : store.

Ltac store_steps :=
  repeat first
    [ apply store_preserving_bind; [| intros ?]
    | progress auto with store
    | match goal with
      | |- store_preserving (match ?x with _ => _ end) => destruct x
      | |- store_preserving (if ?b then _ else _) => destruct b
      end ].

Lemma render_arrays_store_preserving (band : dtype) (l : locals) (title : string)
    (filepath_fig : option string) (show : bool)
    (y_lim : option (float64 * float64)) :
  store_preserving (render_arrays band l title filepath_fig show y_lim).
Proof. unfold render_arrays. store_steps. Qed.

Lemma render_HRF_store_preserving (l : locals) (title : string)
    (filepath_fig : option string) (show : bool)
    (y_lim : option (float64 * float64)) :
  store_preserving (render_HRF l title filepath_fig show y_lim).
Proof. apply render_arrays_store_preserving. Qed.

Lemma broadcast_same_length (f : float64 -> float64 -> float64) (a b : ndarray1) :
  length a = length b -> broadcast f a b = Ok (zip_with f a b).
Proof. intros H. unfold broadcast. now rewrite H, Nat.eqb_refl. Qed.

Lemma render_HRF_run (l : locals) (title : string) (filepath_fig : option string)
    (show : bool) (y_lim : option (float64 * float64)) (s : state) :
  ts_mean l < length (heap s) ->
  std_avg_across_channels l < length (heap s) ->
  t l < length (heap s) ->
  length (deref s (ts_mean l)) = length (deref s (std_avg_across_channels l)) ->
  render_HRF l title filepath_fig show y_lim s =
    (Ok tt,
     {| heap := heap s ++
          [zip_with PrimFloat.sub (deref s (ts_mean l))
             (deref s (std_avg_across_channels l));
           zip_with PrimFloat.add (deref s (ts_mean l))
             (deref s (std_avg_across_channels l))];
        plt := plt s ++
          figure_description (deref s (t l)) (deref s (ts_mean l))
            (deref s (std_avg_across_channels l)) title filepath_fig show y_lim;
        trace := trace s |}).
Proof.
  intros Hm Hs Ht Hlen. unfold deref in *.
  unfold render_HRF, render_arrays, plt_fill_between, bind, np_binop, bind,
    np_get, plt_do, np_new, ret; simpl.
  rewrite (broadcast_same_length _ _ _ Hlen); simpl.
  rewrite !(nth_kept (heap s) _ _ Hm), !(nth_kept (heap s) _ _ Hs).
  rewrite (broadcast_same_length _ _ _ Hlen); simpl.
  rewrite <- !app_assoc; simpl.
  assert (Ht' : t l < length (heap s ++ [zip_with PrimFloat.sub (nth (ts_mean l) (heap s) []) (nth (std_avg_across_channels l) (heap s) [])]))
    by (rewrite length_app; lia).
  pose proof (nth_past (heap s) 0) as H0.
  pose proof (nth_past (heap s) 1) as H1.
  rewrite Nat.add_0_r in H0.
  rewrite !length_app; simpl.
  rewrite H0, H1; simpl.
  rewrite !(nth_kept (heap s) _ _ Ht), !(nth_kept (heap s) _ _ Hm).
  unfold figure_description.
  destruct y_lim as [[lo hi] |], filepath_fig as [[|c path] |], show; simpl;
    rewrite <- ?app_assoc; reflexivity.
Qed.

(** On arrays of dtype object the renderer opens the figure, computes the two
    edges of the band and stops in [plt.fill_between]. *)
Lemma render_arrays_object_run (l : locals) (title : string)
    (filepath_fig : option string) (show : bool)
    (y_lim : option (float64 * float64)) (s : state) :
  ts_mean l < length (heap s) ->
  std_avg_across_channels l < length (heap s) ->
  length (deref s (ts_mean l)) = length (deref s (std_avg_across_channels l)) ->
  render_arrays Object l title filepath_fig show y_lim s =
    (Raise TypeError,
     {| heap := heap s ++
          [zip_with PrimFloat.sub (deref s (ts_mean l))
             (deref s (std_avg_across_channels l));
           zip_with PrimFloat.add (deref s (ts_mean l))
             (deref s (std_avg_across_channels l))];
        plt := plt s ++ [Figure 8%float 5%float];
        trace := trace s |}).
Proof.
  intros Hm Hs Hlen. unfold deref in *.
  unfold render_arrays, plt_fill_between, bind, np_binop, bind,
    np_get, plt_do, np_new, ret, raise; simpl.
  rewrite (broadcast_same_length _ _ _ Hlen); simpl.
  rewrite !(nth_kept (heap s) _ _ Hm), !(nth_kept (heap s) _ _ Hs).
  rewrite (broadcast_same_length _ _ _ Hlen); simpl.
  rewrite <- !app_assoc; reflexivity.
Qed.

(** A table with at least one row gives float64 arrays. *)
Lemma rows_give_float64 (df : DataFrame) :
  index_len df <> 0 -> band_dtype df = Float64.
Proof.
  intros H. unfold band_dtype, values_dtype, values, filter_like.
  cbn [shape index_len].
  destruct (index_len df); [contradiction | reflexivity].
Qed.

(** On float64 arrays [disp_avg_HRF] is the reducer followed by the
    renderer. *)
Lemma disp_avg_HRF_float (fs : filesystem) (path title : string)
    (filepath_fig : option string) (show : bool)
    (y_lim : option (float64 * float64)) (df : DataFrame) (s : state) :
  fs path = Some (Csv df) -> band_dtype df = Float64 ->
  disp_avg_HRF fs path title filepath_fig show y_lim s =
    bind (reduce_HRF fs path)
         (fun l => render_HRF l title filepath_fig show y_lim) s.
Proof.
  intros H Hband. unfold disp_avg_HRF, reduce_HRF, bind.
  rewrite (parse_hrf_csv_table _ _ _ _ H). cbn [fst snd].
  change (result_type (values_dtype (values (filter_like "ts_ch" df)))
            (values_dtype (values (filter_like "std_ch" df))))
    with (band_dtype df).
  rewrite Hband.
  now destruct (reduce_arrays _ _) as [[l | e] s1].
Qed.


(** A table whose band is of dtype object: the loader and the reducer run,
    the figure is opened, and [plt.fill_between] raises. *)
Lemma disp_avg_HRF_object (fs : filesystem) (path title : string)
    (filepath_fig : option string) (show : bool)
    (y_lim : option (float64 * float64)) (df : DataFrame) (s : state) :
  fs path = Some (Csv df) -> band_dtype df = Object ->
  disp_avg_HRF fs path title filepath_fig show y_lim s =
    (Raise TypeError,
     {| heap := heap s ++ arrays_of_table df;
        plt := plt s ++ [Figure 8%float 5%float];
        trace := trace s ++ events_of_table path df |}).
Proof.
  intros H Hband. unfold disp_avg_HRF, bind at 1.
  rewrite (parse_hrf_csv_table _ _ _ _ H). cbn [fst snd].
  change (result_type (values_dtype (values (filter_like "ts_ch" df)))
            (values_dtype (values (filter_like "std_ch" df))))
    with (band_dtype df).
  rewrite Hband.
  pose proof (reduce_HRF_table fs path df s H) as Hred.
  unfold reduce_HRF, bind at 1 in Hred.
  rewrite (parse_hrf_csv_table _ _ _ _ H) in Hred.
  unfold bind at 1. rewrite Hred. clear Hred.
  pose proof (nth_past (heap s) 0) as H0.
  pose proof (nth_past (heap s) 1) as H1.
  rewrite Nat.add_0_r in H0.
  replace (length (heap s) + 1) with (S (length (heap s))) in H1 by lia.
  rewrite render_arrays_object_run; unfold deref; cbn [heap plt trace ts_mean
    std_avg_across_channels t]; rewrite ?H0, ?H1; cbn [nth];
    rewrite ?length_app; cbn [length]; try lia.
  - unfold arrays_of_table, events_of_table.
    rewrite <- app_assoc. reflexivity.
  - rewrite !mean_axis1_length.
    rewrite (rows_values_length (filter_like "ts_ch" df)).
    now rewrite (rows_values_length (filter_like "std_ch" df)).
Qed.

(** * Claims about the reducer, the time vector and the renderer *)

(** C1: for the table ts_ch1=[1,3], ts_ch2=[1,5], std_ch1=[0,0],
    std_ch2=[0,2] the mean trace is [1,4], the spread trace is [0,1] and the
    time vector built for its two rows is [0,20]. *)
Theorem scenario_traces_and_time_axis
    (fs : filesystem) (path : string) (s : state)
    (Hfile : fs path = Some (Csv scenario_table)) :
  exists l s',
    reduce_HRF fs path s = (Ok l, s') /\
    deref s' (ts_mean l) = [1%float; 4%float] /\
    deref s' (std_avg_across_channels l) = [0%float; 1%float] /\
    num_timepoints l = 2 /\
    deref s' (t l) = [0%float; 20%float].
Proof.
  destruct (reduce_HRF_arrays fs path scenario_table s Hfile)
    as [l [s' [Hrun [Hm [Hs [Hn [Ht _]]]]]]].
  exists l, s'. split; [exact Hrun |].
  rewrite Hm, Hs, Hn, Ht. repeat split; vm_compute; reflexivity.
Qed.

Lemma scenario_traces_and_time_axis_witness :
  exists l s',
    reduce_HRF scenario_fs "scenario.csv" initial_state = (Ok l, s') /\
    deref s' (ts_mean l) = [1%float; 4%float] /\
    deref s' (std_avg_across_channels l) = [0%float; 1%float] /\
    num_timepoints l = 2 /\
    deref s' (t l) = [0%float; 20%float].
Proof.
  exact (scenario_traces_and_time_axis scenario_fs "scenario.csv" initial_state eq_refl).
Defined.

(** C3: for a well-formed table with as many "ts_ch" as "std_ch" columns, and
    at least one of each, both traces computed by the reducer have exactly
    one entry per row of the table. *)
Theorem reducer_traces_have_row_count_length
    (fs : filesystem) (path : string) (df : DataFrame) (s : state)
    (Hfile : fs path = Some (Csv df))
    (Hwf : well_formed df)
    (Hequal : length (columns (filter_like "ts_ch" df)) =
              length (columns (filter_like "std_ch" df)))
    (Hnonzero : length (columns (filter_like "ts_ch" df)) <> 0) :
  exists l s',
    reduce_HRF fs path s = (Ok l, s') /\
    length (deref s' (ts_mean l)) = index_len df /\
    length (deref s' (std_avg_across_channels l)) = index_len df.
Proof.
  destruct (reduce_HRF_arrays fs path df s Hfile)
    as [l [s' [Hrun [Hm [Hs _]]]]].
  exists l, s'. split; [exact Hrun |].
  rewrite Hm, Hs, !mean_axis1_length.
  split.
  - exact (rows_values_length (filter_like "ts_ch" df)).
  - exact (rows_values_length (filter_like "std_ch" df)).
Qed.

Lemma scenario_table_well_formed : well_formed scenario_table.
Proof. repeat constructor. Qed.

Lemma reducer_traces_have_row_count_length_witness :
  exists l s',
    reduce_HRF scenario_fs "scenario.csv" initial_state = (Ok l, s') /\
    length (deref s' (ts_mean l)) = 2 /\
    length (deref s' (std_avg_across_channels l)) = 2.
Proof.
  apply (reducer_traces_have_row_count_length scenario_fs "scenario.csv"
           scenario_table initial_state eq_refl scenario_table_well_formed).
  - reflexivity.
  - simpl. discriminate.
Defined.


(** A table without rows that has a column in one of the groups gives a
    band of dtype object. *)
Lemma rowless_gives_object (df : DataFrame) :
  index_len df = 0 ->
  columns (filter_like "ts_ch" df) <> [] \/
  columns (filter_like "std_ch" df) <> [] ->
  band_dtype df = Object.
Proof.
  intros Hrows Hgroup. unfold band_dtype, values_dtype, values. cbn [shape].
  unfold filter_like at 1 3. cbn [index_len]. rewrite Hrows.
  destruct (columns (filter_like "ts_ch" df)) as [|c1 l1];
    destruct (columns (filter_like "std_ch" df)) as [|c2 l2];
    try reflexivity.
  destruct Hgroup as [H | H]; now destruct H.
Qed.




(** C9: rendering never changes an array that was in the store when it
    started, in particular not the time vector, the mean trace and the
    spread trace it is given, whatever the title, the output path, the
    display flag and the y range; it performs no file or console access; and
    when the two traces have the same length it ends without an exception,
    having added to pyplot exactly the figure described by the data. *)
Theorem rendering_leaves_data_unchanged
    (l : locals) (title : string) (filepath_fig : option string) (show : bool)
    (y_lim : option (float64 * float64)) (s : state)
    (Hmean : ts_mean l < length (heap s))
    (Hspread : std_avg_across_channels l < length (heap s))
    (Htime : t l < length (heap s)) :
  let s' := snd (render_HRF l title filepath_fig show y_lim s) in
  deref s' (t l) = deref s (t l) /\
  deref s' (ts_mean l) = deref s (ts_mean l) /\
  deref s' (std_avg_across_channels l) = deref s (std_avg_across_channels l) /\
  (forall r, r < length (heap s) -> deref s' r = deref s r) /\
  trace s' = trace s /\
  (length (deref s (ts_mean l)) = length (deref s (std_avg_across_channels l)) ->
   fst (render_HRF l title filepath_fig show y_lim s) = Ok tt /\
   plt s' = plt s ++
     figure_description (deref s (t l)) (deref s (ts_mean l))
       (deref s (std_avg_across_channels l)) title filepath_fig show y_lim).
Proof.
  intros s'.
  destruct (render_HRF_store_preserving l title filepath_fig show y_lim s)
    as [new [Hheap Htrace]].
  fold s' in Hheap, Htrace.
  assert (Hframe : forall r, r < length (heap s) -> deref s' r = deref s r).
  { intros r Hr. unfold deref. rewrite Hheap. now apply nth_kept. }
  repeat split; auto.
  - rewrite (render_HRF_run l title filepath_fig show y_lim s) by assumption.
    reflexivity.
  - unfold s'.
    rewrite (render_HRF_run l title filepath_fig show y_lim s) by assumption.
    reflexivity.
Qed.

Lemma rendering_leaves_data_unchanged_witness :
  let s' := snd (render_HRF scenario_locals "Before NO - HbO"
                   (Some "before_hrf_hbo.png") true (Some UNIVERSAL_Y_SCALE)
                   scenario_state) in
  deref s' (t scenario_locals) = deref scenario_state (t scenario_locals) /\
  deref s' (ts_mean scenario_locals) = deref scenario_state (ts_mean scenario_locals) /\
  deref s' (std_avg_across_channels scenario_locals) =
    deref scenario_state (std_avg_across_channels scenario_locals) /\
  (forall r, r < length (heap scenario_state) -> deref s' r = deref scenario_state r) /\
  trace s' = trace scenario_state /\
  (length (deref scenario_state (ts_mean scenario_locals)) =
   length (deref scenario_state (std_avg_across_channels scenario_locals)) ->
   fst (render_HRF scenario_locals "Before NO - HbO" (Some "before_hrf_hbo.png")
          true (Some UNIVERSAL_Y_SCALE) scenario_state) = Ok tt /\
   plt s' = plt scenario_state ++
     figure_description (deref scenario_state (t scenario_locals))
       (deref scenario_state (ts_mean scenario_locals))
       (deref scenario_state (std_avg_across_channels scenario_locals))
       "Before NO - HbO" (Some "before_hrf_hbo.png") true (Some UNIVERSAL_Y_SCALE)).
Proof.
  apply (rendering_leaves_data_unchanged scenario_locals "Before NO - HbO"
           (Some "before_hrf_hbo.png") true (Some UNIVERSAL_Y_SCALE) scenario_state);
    unfold scenario_locals, scenario_state; simpl; lia.
Defined.

(** * binary64 arithmetic

    The primitive operations are related to [SpecFloat]'s functions on
    sign, mantissa and exponent by the axioms of [FloatAxioms]; what is
    needed of addition, of division by one and by two, and of the spacing
    of the time vector is derived from those functions here. *)

Local Open Scope Z_scope.

Lemma SFadd_comm (x y : spec_float) : SF64add x y = SF64add y x.
Proof.
  unfold SF64add.
  destruct x as [[|]|[|]| |sx mx ex], y as [[|]|[|]| |sy my ey]; try reflexivity.
  unfold SFadd. rewrite (Z.min_comm ey ex). f_equal. apply Z.add_comm.
Qed.

Lemma float_add_comm (x y : float) : (x + y = y + x)%float.
Proof.
  apply Prim2SF_inj. rewrite !FloatAxioms.add_spec. apply SFadd_comm.
Qed.

Lemma SFadd_zero_l (x : spec_float) :
  SF64add (S754_zero false) x =
    match x with S754_zero _ => S754_zero false | _ => x end.
Proof. destruct x as [[|]|[|]| |sx mx ex]; reflexivity. Qed.

Lemma Prim2SF_zero : Prim2SF 0%float = S754_zero false.
Proof. reflexivity. Qed.

Lemma float_add_zero_swap (x y : float) :
  ((0 + x) + y = (0 + y) + x)%float.
Proof.
  apply Prim2SF_inj. rewrite !FloatAxioms.add_spec, Prim2SF_zero, !SFadd_zero_l.
  destruct (Prim2SF x) as [[|]|[|]| |sx mx ex] eqn:Ex,
           (Prim2SF y) as [[|]|[|]| |sy my ey] eqn:Ey; try reflexivity;
  apply SFadd_comm.
Qed.

Lemma fexp_eq (x : Z) : fexp prec emax x = Z.max (x - 53) (-1074).
Proof. reflexivity. Qed.

Lemma digits_log2 (p : positive) :
  Zpos (digits2_pos p) = Z.log2 (Zpos p) + 1.
Proof.
  induction p as [p IH|p IH|]; simpl; try reflexivity.
  - destruct p; simpl in *; lia.
  - destruct p; simpl in *; lia.
Qed.

Lemma digits_shift (p : positive) (n : Z) :
  0 <= n -> Zdigits2 (Zpos p * 2 ^ n) = Zpos (digits2_pos p) + n.
Proof.
  intros Hn.
  assert (Hpos : 0 < Zpos p * 2 ^ n) by (apply Z.mul_pos_pos; [lia | now apply Z.pow_pos_nonneg]).
  destruct (Zpos p * 2 ^ n) as [|q|q] eqn:E; try lia.
  unfold Zdigits2. rewrite !digits_log2, <- E.
  rewrite Z.log2_mul_pow2 by lia. lia.
Qed.

Lemma bounded_inv (m : positive) (e : Z) :
  bounded prec emax m e = true ->
  Z.max (Zpos (digits2_pos m) + e - 53) (-1074) = e /\ e <= 971.
Proof.
  unfold bounded, canonical_mantissa. rewrite andb_true_iff, fexp_eq.
  intros [H1 H2]. apply Z.eqb_eq in H1. apply Z.leb_le in H2.
  change (emax - prec) with 971 in H2. auto.
Qed.

Lemma shr_1_exact (m : Z) :
  0 <= m ->
  shr_1 {| shr_m := 2 * m; shr_r := false; shr_s := false |} =
    {| shr_m := m; shr_r := false; shr_s := false |}.
Proof. intros H. destruct m as [|p|p]; try reflexivity; lia. Qed.

Lemma shr_exact (n : positive) :
  forall m, 0 <= m ->
  iter_pos shr_1 n {| shr_m := m * 2 ^ Zpos n; shr_r := false; shr_s := false |} =
    {| shr_m := m; shr_r := false; shr_s := false |}.
Proof.
  induction n as [n IH|n IH|]; intros m Hm; cbn [iter_pos].
  - assert (HP : 0 <= 2 ^ Zpos n) by (apply Z.pow_nonneg; lia).
    replace (m * 2 ^ Zpos n~1) with (2 * ((m * 2 ^ Zpos n) * 2 ^ Zpos n)).
    + rewrite shr_1_exact by nia.
      rewrite IH by nia. now apply IH.
    + replace (Zpos n~1) with (1 + Zpos n + Zpos n) by lia.
      rewrite !Z.pow_add_r by lia. change (2 ^ 1) with 2. ring.
  - assert (HP : 0 <= 2 ^ Zpos n) by (apply Z.pow_nonneg; lia).
    replace (m * 2 ^ Zpos n~0) with ((m * 2 ^ Zpos n) * 2 ^ Zpos n).
    + rewrite IH by nia. now apply IH.
    + replace (Zpos n~0) with (Zpos n + Zpos n) by lia.
      rewrite !Z.pow_add_r by lia. ring.
  - change (2 ^ 1) with 2. rewrite Z.mul_comm. now apply shr_1_exact.
Qed.

(** Rounding a value that already is a float64 gives that float64, or the
    infinity when its exponent is too large. *)
Lemma round_exact (s : bool) (mx : positive) (ex : Z) (m : positive) (e : Z) :
  ex <= e ->
  Zpos mx = Zpos m * 2 ^ (e - ex) ->
  Z.max (Zpos (digits2_pos m) + e - 53) (-1074) = e ->
  binary_round_aux prec emax s (Zpos mx) ex loc_Exact =
    if e <=? 971 then S754_finite s m e else S754_infinity s.
Proof.
  intros Hle Hval Hcan.
  unfold binary_round_aux.
  assert (Hfirst : shr_fexp prec emax (Zpos mx) ex loc_Exact =
            ({| shr_m := Zpos m; shr_r := false; shr_s := false |}, e)).
  { unfold shr_fexp. rewrite Hval, digits_shift by lia. rewrite fexp_eq.
    replace (Zpos (digits2_pos m) + (e - ex) + ex - 53)
      with (Zpos (digits2_pos m) + e - 53) by lia.
    rewrite Hcan. unfold shr, shr_record_of_loc.
    destruct (e - ex) as [|n|n] eqn:En; try lia.
    - rewrite Z.mul_1_r. f_equal. lia.
    - rewrite shr_exact by lia. f_equal. lia. }
  rewrite Hfirst. cbn [shr_m loc_of_shr_record round_nearest_even].
  assert (Hsecond : shr_fexp prec emax (Zpos m) e loc_Exact =
            ({| shr_m := Zpos m; shr_r := false; shr_s := false |}, e)).
  { unfold shr_fexp, Zdigits2. rewrite fexp_eq, Hcan, Z.sub_diag. reflexivity. }
  rewrite Hsecond. cbn [shr_m]. reflexivity.
Qed.

Lemma div_eucl_exact (q b : Z) :
  0 < b -> Z.div_eucl (q * b) b = (q, 0).
Proof.
  intros Hb.
  assert (E : Z.div_eucl (q * b) b = ((q * b) / b, (q * b) mod b)).
  { unfold Z.div, Z.modulo. now destruct (Z.div_eucl (q * b) b). }
  rewrite E, Z.div_mul, Z.mod_mul by lia. reflexivity.
Qed.

(** Dividing a float64 by a power of two whose quotient is a float64. *)
Lemma SFdiv_pow2_exact (s : bool) (mx : positive) (ex ey : Z) (m : positive) (e : Z) :
  let e' := Z.min (fexp prec emax (Zpos (digits2_pos mx) + ex - (53 + ey))) (ex - ey) in
  let sh := ex - ey - e' in
  e' <= e ->
  Zpos mx * 2 ^ sh = (Zpos m * 2 ^ (e - e')) * 2 ^ 52 ->
  bounded prec emax m e = true ->
  SF64div (S754_finite s mx ex) (S754_finite false 4503599627370496 ey) =
    S754_finite s m e.
Proof.
  intros e' sh He Hval Hb. destruct (bounded_inv m e Hb) as [Hcan Hmax].
  unfold SF64div, SFdiv, SFdiv_core_binary.
  change (Zdigits2 (Zpos mx)) with (Zpos (digits2_pos mx)).
  change (Zdigits2 4503599627370496) with 53.
  fold e'. fold sh.
  assert (Hsh : 0 <= sh) by (unfold sh, e'; lia).
  assert (Hm' : forall z, 0 <= z ->
                match z with
                | 0 => Zpos mx
                | Zpos _ => Z.shiftl (Zpos mx) z
                | Zneg _ => 0
                end = Zpos mx * 2 ^ z).
  { intros [|p|p] Hz; try lia. now rewrite Z.shiftl_mul_pow2 by lia. }
  rewrite (Hm' sh Hsh), Hval. change (2 ^ 52) with 4503599627370496.
  rewrite div_eucl_exact by lia.
  change (new_location 4503599627370496 0) with loc_Exact.
  rewrite xorb_false_r.
  assert (Hq : 0 < Zpos m * 2 ^ (e - e')).
  { apply Z.mul_pos_pos; [lia | apply Z.pow_pos_nonneg; lia]. }
  destruct (Zpos m * 2 ^ (e - e')) as [|q|q] eqn:Eq; try lia.
  rewrite (round_exact s q e' m e) by (assumption || lia).
  destruct (Z.leb_spec e 971); [reflexivity | lia].
Qed.

Lemma Prim2SF_one : Prim2SF 1%float = S754_finite false 4503599627370496 (-52).
Proof. reflexivity. Qed.

Lemma Prim2SF_two : Prim2SF 2%float = S754_finite false 4503599627370496 (-51).
Proof. reflexivity. Qed.

Ltac pow_consts :=
  repeat match goal with
         | |- context [2 ^ ?k] =>
             let v := eval vm_compute in (2 ^ k) in
             progress change (2 ^ k) with v
         end.

Lemma SFdiv_one (s : bool) (m : positive) (e : Z) :
  bounded prec emax m e = true ->
  SF64div (S754_finite s m e) (Prim2SF 1%float) = S754_finite s m e.
Proof.
  intros Hb. destruct (bounded_inv m e Hb) as [Hcan Hmax].
  rewrite Prim2SF_one.
  apply SFdiv_pow2_exact; rewrite ?fexp_eq; try assumption; try lia.
  assert (C : (e = -1074 /\ Zpos (digits2_pos m) <= 53) \/
              (-1074 < e /\ Zpos (digits2_pos m) = 53)) by lia.
  destruct C as [[-> Hd] | [He Hd]].
  - replace (Z.min (Z.max (Zpos (digits2_pos m) + -1074 - (53 + -52) - 53) (-1074))
               (-1074 - -52)) with (-1074) by lia.
    change (-1074 - -52 - -1074) with 52. change (-1074 - -1074) with 0.
    pow_consts. lia.
  - rewrite Hd.
    replace (Z.min (Z.max (53 + e - (53 + -52) - 53) (-1074)) (e - -52))
      with (e - 1) by lia.
    replace (e - -52 - (e - 1)) with 53 by lia.
    replace (e - (e - 1)) with 1 by lia. pow_consts. lia.
Qed.

(** The sum of a float64 with itself. *)
Lemma SFadd_self (s : bool) (m : positive) (e : Z) :
  bounded prec emax m e = true ->
  SF64add (S754_finite s m e) (S754_finite s m e) =
    if Zpos (digits2_pos m) =? 53 then
      if e + 1 <=? 971 then S754_finite s m (e + 1) else S754_infinity s
    else S754_finite s (m~0)%positive e.
Proof.
  intros Hb. destruct (bounded_inv m e Hb) as [Hcan Hmax].
  unfold SF64add, SFadd. rewrite Z.min_id.
  assert (Hal : shl_align m e e = (m, e)).
  { unfold shl_align. now rewrite Z.sub_diag. }
  rewrite Hal. cbn [fst].
  assert (Hsum : binary_normalize prec emax
                   (cond_Zopp s (Zpos m) + cond_Zopp s (Zpos m)) e false =
                 binary_round prec emax s (m~0)%positive e).
  { destruct s; simpl; now rewrite Pos.add_diag. }
  rewrite Hsum. unfold binary_round.
  change (digits2_pos (m~0)%positive) with (Pos.succ (digits2_pos m)).
  rewrite fexp_eq.
  destruct (Z.eqb_spec (Zpos (digits2_pos m)) 53) as [Hd | Hd].
  - assert (Hal2 : shl_align (m~0)%positive e (Z.max (Zpos (Pos.succ (digits2_pos m)) + e - 53) (-1074)) = ((m~0)%positive, e)).
    { unfold shl_align.
      replace (Z.max (Zpos (Pos.succ (digits2_pos m)) + e - 53) (-1074) - e) with 1 by lia.
      reflexivity. }
    rewrite Hal2.
    apply round_exact; try lia.
    replace (e + 1 - e) with 1 by lia. pow_consts. lia.
  - assert (Hal2 : shl_align (m~0)%positive e (Z.max (Zpos (Pos.succ (digits2_pos m)) + e - 53) (-1074)) = ((m~0)%positive, e)).
    { unfold shl_align.
      replace (Z.max (Zpos (Pos.succ (digits2_pos m)) + e - 53) (-1074) - e) with 0 by lia.
      reflexivity. }
    rewrite Hal2.
    rewrite (round_exact s (m~0)%positive e (m~0)%positive e); try lia.
    + destruct (Z.leb_spec e 971); [reflexivity | lia].
    + rewrite Z.sub_diag. pow_consts. lia.
    + change (digits2_pos (m~0)%positive) with (Pos.succ (digits2_pos m)). lia.
Qed.

Lemma SFdiv_two_normal (s : bool) (m : positive) (e : Z) :
  bounded prec emax m e = true -> Zpos (digits2_pos m) = 53 -> e + 1 <= 971 ->
  SF64div (S754_finite s m (e + 1)) (Prim2SF 2%float) = S754_finite s m e.
Proof.
  intros Hb Hd He. destruct (bounded_inv m e Hb) as [Hcan Hmax].
  rewrite Prim2SF_two.
  apply SFdiv_pow2_exact; rewrite ?fexp_eq, ?Hd; try assumption; try lia.
  assert (C : e = -1074 \/ -1074 < e) by lia.
  destruct C as [-> | He'].
  - change (Z.min (Z.max (53 + (-1074 + 1) - (53 + -51) - 53) (-1074)) (-1074 + 1 - -51))
      with (-1074).
    change (-1074 + 1 - -51 - -1074) with 52. change (-1074 - -1074) with 0.
    pow_consts. lia.
  - replace (Z.min (Z.max (53 + (e + 1) - (53 + -51) - 53) (-1074)) (e + 1 - -51))
      with (e - 1) by lia.
    replace (e + 1 - -51 - (e - 1)) with 53 by lia.
    replace (e - (e - 1)) with 1 by lia. pow_consts. lia.
Qed.

Lemma SFdiv_two_subnormal (s : bool) (m : positive) (e : Z) :
  bounded prec emax m e = true -> Zpos (digits2_pos m) <> 53 ->
  SF64div (S754_finite s (m~0)%positive e) (Prim2SF 2%float) = S754_finite s m e.
Proof.
  intros Hb Hd. destruct (bounded_inv m e Hb) as [Hcan Hmax].
  rewrite Prim2SF_two.
  assert (He : e = -1074) by lia. subst e.
  change (digits2_pos (m~0)%positive) with (Pos.succ (digits2_pos m)).
  apply SFdiv_pow2_exact; rewrite ?fexp_eq; try assumption;
    change (digits2_pos (m~0)%positive) with (Pos.succ (digits2_pos m)); try lia.
  replace (Z.min (Z.max (Zpos (Pos.succ (digits2_pos m)) + -1074 - (53 + -51) - 53) (-1074))
             (-1074 - -51)) with (-1074) by lia.
  change (-1074 - -51 - -1074) with 51. change (-1074 - -1074) with 0.
  pow_consts. lia.
Qed.

(** ** Rounding in general *)

Lemma Zdigits2_log2 (m : Z) : 0 < m -> Zdigits2 m = Z.log2 m + 1.
Proof. destruct m as [|p|p]; try lia. intros _. apply digits_log2. Qed.

Lemma Zdigits2_ge (m k : Z) : 0 < m -> 2 ^ k <= m -> k + 1 <= Zdigits2 m.
Proof.
  intros Hm H. rewrite Zdigits2_log2 by assumption.
  apply (Z.log2_le_pow2 m k Hm) in H. lia.
Qed.

Lemma Zdigits2_le (m k : Z) : 0 < m -> m < 2 ^ k -> Zdigits2 m <= k.
Proof.
  intros Hm H. rewrite Zdigits2_log2 by assumption.
  apply (Z.log2_lt_pow2 m k Hm) in H. lia.
Qed.

Lemma Zdigits2_lower (m : Z) : 0 < m -> 2 ^ (Zdigits2 m - 1) <= m.
Proof.
  intros Hm. rewrite Zdigits2_log2 by assumption.
  replace (Z.log2 m + 1 - 1) with (Z.log2 m) by lia.
  now apply Z.log2_spec.
Qed.

Lemma Zdigits2_upper (m : Z) : 0 < m -> m < 2 ^ Zdigits2 m.
Proof.
  intros Hm. rewrite Zdigits2_log2 by assumption.
  replace (Z.log2 m + 1) with (Z.succ (Z.log2 m)) by lia.
  now apply Z.log2_spec.
Qed.

Lemma shr_1_m (mrs : shr_record) :
  0 <= shr_m mrs -> shr_m (shr_1 mrs) = shr_m mrs / 2.
Proof.
  destruct mrs as [m r s]. cbn [shr_m]. intros Hm.
  rewrite <- Z.div2_div.
  destruct m as [|[p|p|]|p]; try reflexivity; lia.
Qed.

Lemma shr_iter_m (n : positive) :
  forall mrs, 0 <= shr_m mrs ->
  shr_m (iter_pos shr_1 n mrs) = shr_m mrs / 2 ^ Zpos n.
Proof.
  induction n as [n IH|n IH|]; intros mrs Hm; cbn [iter_pos].
  - assert (HP : 0 < 2 ^ Zpos n) by (apply Z.pow_pos_nonneg; lia).
    assert (H1 : 0 <= shr_m (shr_1 mrs)) by (rewrite shr_1_m by lia; apply Z.div_pos; lia).
    assert (H2 : 0 <= shr_m (iter_pos shr_1 n (shr_1 mrs)))
      by (rewrite IH by lia; apply Z.div_pos; lia).
    rewrite IH, IH, shr_1_m by lia.
    rewrite !Z.div_div by lia. f_equal.
    replace (Zpos n~1) with (1 + Zpos n + Zpos n) by lia.
    rewrite !Z.pow_add_r by lia. change (2 ^ 1) with 2. ring.
  - assert (HP : 0 < 2 ^ Zpos n) by (apply Z.pow_pos_nonneg; lia).
    assert (H2 : 0 <= shr_m (iter_pos shr_1 n mrs))
      by (rewrite IH by lia; apply Z.div_pos; lia).
    rewrite IH, IH by lia.
    rewrite !Z.div_div by lia. f_equal.
    replace (Zpos n~0) with (Zpos n + Zpos n) by lia.
    rewrite !Z.pow_add_r by lia. reflexivity.
  - now apply shr_1_m.
Qed.

Lemma shr_record_of_loc_m (m : Z) (l : location) :
  shr_m (shr_record_of_loc m l) = m.
Proof. destruct l as [|[ | | ]]; reflexivity. Qed.

(** The mantissa and the exponent after [shr_fexp] when nothing underflows. *)
Lemma shr_fexp_m (m e : Z) (l : location) :
  0 < m -> 53 <= Zdigits2 m -> -1074 <= Zdigits2 m + e - 53 ->
  shr_m (fst (shr_fexp prec emax m e l)) = m / 2 ^ (Zdigits2 m - 53) /\
  snd (shr_fexp prec emax m e l) = Zdigits2 m + e - 53.
Proof.
  intros Hm Hd He. unfold shr_fexp. rewrite fexp_eq.
  replace (Z.max (Zdigits2 m + e - 53) (-1074) - e) with (Zdigits2 m - 53) by lia.
  unfold shr. destruct (Zdigits2 m - 53) as [|n|n] eqn:En; try lia; cbn [fst snd].
  - rewrite shr_record_of_loc_m, Z.pow_0_r, Z.div_1_r. split; lia.
  - rewrite shr_iter_m by (rewrite shr_record_of_loc_m; lia).
    rewrite shr_record_of_loc_m. split; lia.
Qed.

Lemma round_nearest_even_range (m : Z) (l : location) :
  m <= round_nearest_even m l <= m + 1.
Proof.
  unfold round_nearest_even. destruct l as [|[ | | ]]; try lia.
  destruct (Z.even m); lia.
Qed.

(** Rounding a positive value of at least 53 digits that neither underflows
    nor overflows gives a finite float64. *)
Lemma binary_round_aux_finite (s : bool) (mx ex : Z) (lx : location) :
  0 < mx -> 53 <= Zdigits2 mx ->
  -1074 <= Zdigits2 mx + ex - 53 -> Zdigits2 mx + ex <= 1023 ->
  exists m e,
    binary_round_aux prec emax s mx ex lx = S754_finite s m e /\
    Zdigits2 mx + ex - 53 <= e <= Zdigits2 mx + ex - 52.
Proof.
  intros Hm Hd Hlo Hhi. unfold binary_round_aux.
  destruct (shr_fexp_m mx ex lx Hm Hd Hlo) as [Hm1 He1].
  destruct (shr_fexp prec emax mx ex lx) as [mrs1 e1]. cbn [fst snd] in Hm1, He1.
  set (D := Zdigits2 mx) in *.
  assert (HPn : 0 < 2 ^ (D - 53)) by (apply Z.pow_pos_nonneg; lia).
  assert (Hlow : 2 ^ 52 <= shr_m mrs1).
  { rewrite Hm1. apply Z.div_le_lower_bound; [lia |].
    rewrite <- Z.pow_add_r by lia.
    replace (D - 53 + 52) with (D - 1) by lia. now apply Zdigits2_lower. }
  assert (Hupp : shr_m mrs1 < 2 ^ 53).
  { rewrite Hm1. apply Z.div_lt_upper_bound; [lia |].
    rewrite <- Z.pow_add_r by lia.
    replace (D - 53 + 53) with D by lia. now apply Zdigits2_upper. }
  pose proof (round_nearest_even_range (shr_m mrs1) (loc_of_shr_record mrs1)) as Hr.
  set (m2 := round_nearest_even (shr_m mrs1) (loc_of_shr_record mrs1)) in *.
  assert (Hm2 : 0 < m2) by (pow_consts; lia).
  assert (Hd2lo : 53 <= Zdigits2 m2) by (apply (Zdigits2_ge m2 52); lia).
  assert (Hd2hi : Zdigits2 m2 <= 54).
  { apply Zdigits2_le; [lia |]. change (2 ^ 54) with (2 * 2 ^ 53). lia. }
  destruct (shr_fexp_m m2 e1 loc_Exact Hm2 Hd2lo) as [Hm3 He3]; [lia |].
  destruct (shr_fexp prec emax m2 e1 loc_Exact) as [mrs3 e3]. cbn [fst snd] in Hm3, He3.
  assert (Hm3pos : 0 < shr_m mrs3).
  { rewrite Hm3.
    assert (HP2 : 0 < 2 ^ (Zdigits2 m2 - 53)) by (apply Z.pow_pos_nonneg; lia).
    apply Z.lt_le_trans with (m := 1); [lia |].
    apply Z.div_le_lower_bound; [lia |]. rewrite Z.mul_1_r.
    apply Z.le_trans with (m := 2 ^ (Zdigits2 m2 - 1)); [| now apply Zdigits2_lower].
    apply Z.pow_le_mono_r; lia. }
  destruct (shr_m mrs3) as [|m3|m3]; try lia.
  exists m3, e3. change (emax - prec) with 971.
  destruct (Z.leb_spec e3 971); [| lia]. split; [reflexivity | lia].
Qed.

Lemma iter_xO_value (d p : positive) :
  Zpos (Pos.iter xO p d) = Zpos p * 2 ^ Zpos d.
Proof.
  induction d as [|d IH] using Pos.peano_ind.
  - simpl. lia.
  - rewrite Pos.iter_succ, Pos2Z.inj_succ, Z.pow_succ_r by lia.
    change (Zpos (Pos.iter xO p d)~0) with (2 * Zpos (Pos.iter xO p d)).
    rewrite IH. ring.
Qed.

(** A positive count below 2^63 is a finite normal float64 of magnitude at
    least one. *)
Lemma float_of_nat_shape (n : nat) :
  (1 <= n)%nat -> Z.of_nat n < 2 ^ 63 ->
  exists m e,
    Prim2SF (float_of_nat n) = S754_finite false m e /\
    Zpos (digits2_pos m) = 53 /\ -52 <= e <= 971.
Proof.
  intros Hn Hbig.
  pose proof (Prim2SF_valid (float_of_nat n)) as Hvalid.
  unfold float_of_nat in *.
  rewrite of_uint63_spec, of_Z_spec in *.
  rewrite Z.mod_small in * by (change wB with (2 ^ 63); lia).
  destruct (Z.of_nat n) as [|p|p] eqn:Ep; try lia.
  cbn [binary_normalize] in *. unfold binary_round in *.
  rewrite fexp_eq in *.
  assert (Hdp : 1 <= Zpos (digits2_pos p) <= 63).
  { change (Zpos (digits2_pos p)) with (Zdigits2 (Zpos p)).
    split; [apply (Zdigits2_ge (Zpos p) 0); simpl; lia | apply Zdigits2_le; lia]. }
  assert (Hshape : exists m e,
            (let '(mz, ez) := shl_align p 0 (Z.max (Zpos (digits2_pos p) + 0 - 53) (-1074)) in
             binary_round_aux prec emax false (Zpos mz) ez loc_Exact) =
              S754_finite false m e /\ -52 <= e).
  { unfold shl_align.
    destruct (Z.max (Zpos (digits2_pos p) + 0 - 53) (-1074) - 0) as [|d|d] eqn:Ed.
    - destruct (binary_round_aux_finite false (Zpos p) 0 loc_Exact) as [m [e [H1 H2]]];
        cbn [Zdigits2]; try lia.
      exists m, e. split; [exact H1 | cbn [Zdigits2] in H2; lia].
    - destruct (binary_round_aux_finite false (Zpos p) 0 loc_Exact) as [m [e [H1 H2]]];
        cbn [Zdigits2]; try lia.
      exists m, e. split; [exact H1 | cbn [Zdigits2] in H2; lia].
    - assert (Hdig : Zdigits2 (Zpos (Pos.iter xO p d)) = 53).
      { rewrite iter_xO_value, digits_shift by lia. lia. }
      destruct (binary_round_aux_finite false (Zpos (Pos.iter xO p d))
                  (Z.max (Zpos (digits2_pos p) + 0 - 53) (-1074)) loc_Exact)
        as [m [e [H1 H2]]]; rewrite ?Hdig; try lia.
      exists m, e. split; [exact H1 | lia]. }
  destruct Hshape as [m [e [Hm He]]].
  rewrite Hm in Hvalid. cbn [SpecFloat.valid_binary] in Hvalid.
  destruct (bounded_inv m e Hvalid) as [Hcan Hmax].
  exists m, e. split; [exact Hm | lia].
Qed.

Lemma Prim2SF_twenty : Prim2SF 20%float = S754_finite false 5629499534213120 (-48).
Proof. reflexivity. Qed.

(** 20 divided by a float64 of magnitude at least one is a positive finite
    float64. *)
Lemma SFdiv_twenty_finite (m : positive) (e : Z) :
  Zpos (digits2_pos m) = 53 -> -52 <= e <= 971 ->
  exists m' e',
    SF64div (Prim2SF 20%float) (S754_finite false m e) = S754_finite false m' e'.
Proof.
  intros Hd He. rewrite Prim2SF_twenty.
  unfold SF64div, SFdiv, SFdiv_core_binary.
  change (Zdigits2 5629499534213120) with 53.
  change (Zdigits2 (Zpos m)) with (Zpos (digits2_pos m)). rewrite Hd, fexp_eq.
  replace (Z.min (Z.max (53 + -48 - (53 + e) - 53) (-1074)) (-48 - e))
    with (-101 - e) by lia.
  replace (-48 - e - (-101 - e)) with 53 by lia.
  change (Z.shiftl 5629499534213120 53) with (5629499534213120 * 2 ^ 53).
  assert (Hmlo : 2 ^ 52 <= Zpos m).
  { replace 52 with (Zdigits2 (Zpos m) - 1) by (cbn [Zdigits2]; lia).
    apply Zdigits2_lower. lia. }
  assert (Hmhi : Zpos m < 2 ^ 53).
  { replace 53 with (Zdigits2 (Zpos m)) by (cbn [Zdigits2]; lia).
    apply Zdigits2_upper. lia. }
  assert (E : Z.div_eucl (5629499534213120 * 2 ^ 53) (Zpos m) =
              ((5629499534213120 * 2 ^ 53) / Zpos m, (5629499534213120 * 2 ^ 53) mod Zpos m)).
  { unfold Z.div, Z.modulo. now destruct (Z.div_eucl (5629499534213120 * 2 ^ 53) (Zpos m)). }
  rewrite E.
  set (q := (5629499534213120 * 2 ^ 53) / Zpos m).
  assert (Hqlo : 2 ^ 52 <= q).
  { apply Z.div_le_lower_bound; [lia |]. revert Hmlo Hmhi. pow_consts. lia. }
  assert (Hqhi : q < 2 ^ 54).
  { apply Z.div_lt_upper_bound; [lia |]. revert Hmlo Hmhi. pow_consts. lia. }
  assert (Hq : 0 < q) by (revert Hqlo; pow_consts; lia).
  assert (Hdq : 53 <= Zdigits2 q <= 54).
  { split; [apply (Zdigits2_ge q 52); assumption | apply Zdigits2_le; assumption]. }
  destruct (binary_round_aux_finite (xorb false false) q (-101 - e)
              (new_location (Zpos m) ((5629499534213120 * 2 ^ 53) mod Zpos m)))
    as [m' [e' [H1 H2]]]; try lia.
  exists m', e'. exact H1.
Qed.

(** ** From the primitive operations to their specification *)

Lemma np_isfinite_inv (x : float64) :
  np_isfinite x = true ->
  match Prim2SF x with
  | S754_zero _ | S754_finite _ _ _ => True
  | _ => False
  end.
Proof.
  unfold np_isfinite. rewrite FloatAxioms.ltb_spec, FloatAxioms.abs_spec.
  destruct (Prim2SF x) as [s|s| |s m e]; try exact (fun _ => I);
    intros H; vm_compute in H; discriminate H.
Qed.

Lemma np_isfinite_finite (x : float64) (s : bool) (m : positive) (e : Z) :
  Prim2SF x = S754_finite s m e -> np_isfinite x = true.
Proof.
  intros E. unfold np_isfinite. rewrite FloatAxioms.ltb_spec, FloatAxioms.abs_spec, E. reflexivity.
Qed.

Lemma SFeqb_finite_refl (s : bool) (m : positive) (e : Z) :
  SFeqb (S754_finite s m e) (S754_finite s m e) = true.
Proof.
  unfold SFeqb, SFcompare.
  destruct s; rewrite Z.compare_refl, Pos.compare_cont_refl; reflexivity.
Qed.

(** The mean of a single value is that value. *)
Lemma mean_of_one (v : float64) :
  np_isfinite (add_reduce [v]) = true ->
  np_equal (PrimFloat.div (add_reduce [v]) (float_of_nat 1)) v = true.
Proof.
  intros Hfin. apply np_isfinite_inv in Hfin. revert Hfin.
  unfold add_reduce, np_equal; cbn [fold_left].
  change (float_of_nat 1) with 1%float.
  rewrite FloatAxioms.eqb_spec, FloatAxioms.div_spec, FloatAxioms.add_spec.
  pose proof (Prim2SF_valid v) as Hvalid.
  change (Prim2SF 0) with (S754_zero false).
  destruct (Prim2SF v) as [s|s| |s m e].
  - intros _. destruct s; reflexivity.
  - destruct s; intros [].
  - intros [].
  - intros _. change (SF64add (S754_zero false) (S754_finite s m e))
      with (S754_finite s m e).
    rewrite (SFdiv_one s m e Hvalid). apply SFeqb_finite_refl.
Qed.

(** The mean of a value taken twice is that value, unless the sum
    overflows. *)
Lemma mean_of_two (v : float64) :
  np_isfinite (add_reduce [v; v]) = true ->
  np_equal (PrimFloat.div (add_reduce [v; v]) (float_of_nat 2)) v = true.
Proof.
  intros Hfin. apply np_isfinite_inv in Hfin. revert Hfin.
  unfold add_reduce, np_equal; cbn [fold_left].
  change (float_of_nat 2) with 2%float.
  rewrite FloatAxioms.eqb_spec, FloatAxioms.div_spec, !FloatAxioms.add_spec.
  pose proof (Prim2SF_valid v) as Hvalid.
  change (Prim2SF 0) with (S754_zero false).
  destruct (Prim2SF v) as [s|s| |s m e].
  - intros _. destruct s; reflexivity.
  - destruct s; intros [].
  - intros [].
  - change (SF64add (S754_zero false) (S754_finite s m e))
      with (S754_finite s m e).
    cbn [SpecFloat.valid_binary] in Hvalid.
    rewrite (SFadd_self s m e Hvalid).
    destruct (Z.eqb_spec (Zpos (digits2_pos m)) 53) as [Hd | Hd].
    + destruct (Z.leb_spec (e + 1) 971) as [He | He]; [| intros []].
      intros _. rewrite (SFdiv_two_normal s m e Hvalid Hd He).
      apply SFeqb_finite_refl.
    + intros _. rewrite (SFdiv_two_subnormal s m e Hvalid Hd).
      apply SFeqb_finite_refl.
Qed.


(** ** Sums that are no negative zero *)

Lemma shr_fexp_pos (m e : Z) (l : location) :
  0 < m -> -1074 <= e ->
  0 < shr_m (fst (shr_fexp prec emax m e l)) /\
  -1074 <= snd (shr_fexp prec emax m e l).
Proof.
  intros Hm He. unfold shr_fexp. rewrite fexp_eq. unfold shr.
  destruct (Z.max (Zdigits2 m + e - 53) (-1074) - e) as [|n|n] eqn:En;
    cbn [fst snd].
  - rewrite shr_record_of_loc_m. lia.
  - rewrite shr_iter_m by (rewrite shr_record_of_loc_m; lia).
    rewrite shr_record_of_loc_m.
    assert (Hn : Zpos n = Zdigits2 m - 53) by lia.
    split; [| lia]. rewrite Hn.
    assert (HP : 0 < 2 ^ (Zdigits2 m - 53)) by (apply Z.pow_pos_nonneg; lia).
    apply Z.lt_le_trans with (m := 2 ^ 52); [reflexivity |].
    apply Z.div_le_lower_bound; [lia |].
    rewrite <- Z.pow_add_r by lia.
    replace (Zdigits2 m - 53 + 52) with (Zdigits2 m - 1) by lia.
    now apply Zdigits2_lower.
  - rewrite shr_record_of_loc_m. lia.
Qed.

(** Rounding a positive value whose exponent is that of a float64 never
    gives a zero. *)
Lemma binary_round_aux_not_zero (s s0 : bool) (m e : Z) (l : location) :
  0 < m -> -1074 <= e ->
  binary_round_aux prec emax s m e l <> S754_zero s0.
Proof.
  intros Hm He. unfold binary_round_aux.
  destruct (shr_fexp_pos m e l Hm He) as [H1 H2].
  destruct (shr_fexp prec emax m e l) as [mrs1 e1]. cbn [fst snd] in H1, H2.
  pose proof (round_nearest_even_range (shr_m mrs1) (loc_of_shr_record mrs1)) as Hr.
  set (m2 := round_nearest_even (shr_m mrs1) (loc_of_shr_record mrs1)) in *.
  assert (Hm2 : 0 < m2) by lia.
  destruct (shr_fexp_pos m2 e1 loc_Exact Hm2 H2) as [H3 H4].
  destruct (shr_fexp prec emax m2 e1 loc_Exact) as [mrs3 e3]. cbn [fst snd] in H3, H4.
  destruct (shr_m mrs3) as [|m3|m3]; try lia.
  destruct (e3 <=? emax - prec); discriminate.
Qed.

Lemma binary_round_not_zero (s s0 : bool) (p : positive) (e : Z) :
  -1074 <= e -> binary_round prec emax s p e <> S754_zero s0.
Proof.
  intros He. unfold binary_round, shl_align. rewrite fexp_eq.
  destruct (Z.max (Zpos (digits2_pos p) + e - 53) (-1074) - e) as [|d|d];
    apply binary_round_aux_not_zero; lia.
Qed.

(** A sum is the negative zero only when its first term is. *)
Lemma SFadd_not_neg_zero (x y : spec_float) :
  SpecFloat.valid_binary prec emax x = true ->
  SpecFloat.valid_binary prec emax y = true ->
  x <> S754_zero true -> SF64add x y <> S754_zero true.
Proof.
  intros Hx Hy Hnz.
  destruct x as [[|]|[|]| |sx mx ex], y as [[|]|[|]| |sy my ey];
    try discriminate; try (now destruct Hnz).
  cbn [SpecFloat.valid_binary] in Hx, Hy.
  destruct (bounded_inv mx ex Hx) as [Hcx _], (bounded_inv my ey Hy) as [Hcy _].
  unfold SF64add, SFadd, binary_normalize.
  destruct (cond_Zopp sx (Zpos (fst (shl_align mx ex (Z.min ex ey)))) +
            cond_Zopp sy (Zpos (fst (shl_align my ey (Z.min ex ey))))) as [|p|p];
    [discriminate | |]; apply binary_round_not_zero; lia.
Qed.

Lemma float_add_not_neg_zero (x y : float) :
  Prim2SF x <> S754_zero true -> Prim2SF (x + y)%float <> S754_zero true.
Proof.
  intros H. rewrite FloatAxioms.add_spec.
  apply SFadd_not_neg_zero; [apply Prim2SF_valid | apply Prim2SF_valid | exact H].
Qed.

Lemma float_zero_add (x : float) :
  Prim2SF x <> S754_zero true -> (0 + x = x)%float.
Proof.
  intros H. apply Prim2SF_inj.
  rewrite FloatAxioms.add_spec, Prim2SF_zero, SFadd_zero_l.
  destruct (Prim2SF x) as [[|]|[|]| |sx mx ex]; try reflexivity. now destruct H.
Qed.

(** ** NaN *)

Lemma float_add_nan_r (x : float64) : PrimFloat.add x PrimFloat.nan = PrimFloat.nan.
Proof.
  apply Prim2SF_inj. rewrite FloatAxioms.add_spec.
  change (Prim2SF PrimFloat.nan) with S754_nan.
  now destruct (Prim2SF x) as [[|]|[|]| |sx mx ex].
Qed.

Lemma float_add_nan_l (x : float64) : PrimFloat.add PrimFloat.nan x = PrimFloat.nan.
Proof. rewrite float_add_comm. apply float_add_nan_r. Qed.

Lemma float_div_nan_l (x : float64) : PrimFloat.div PrimFloat.nan x = PrimFloat.nan.
Proof.
  apply Prim2SF_inj. rewrite FloatAxioms.div_spec.
  change (Prim2SF PrimFloat.nan) with S754_nan. reflexivity.
Qed.

Lemma fold_add_from_nan (r : list float64) :
  fold_left PrimFloat.add r PrimFloat.nan = PrimFloat.nan.
Proof.
  induction r as [|x r IH]; [reflexivity |].
  simpl. now rewrite float_add_nan_l.
Qed.

Local Close Scope Z_scope.

(** * The order of the additions *)

Lemma fold_add_not_neg_zero (r : list float64) :
  forall acc, Prim2SF acc <> S754_zero true ->
  Prim2SF (fold_left PrimFloat.add r acc) <> S754_zero true.
Proof.
  induction r as [|x r IH]; intros acc H; [exact H |].
  cbn [fold_left]. apply IH. now apply float_add_not_neg_zero.
Qed.

Lemma pairwise_sum_rec_short (d : nat) (a : list float64) :
  length a < 8 -> pairwise_sum_rec d a = add_reduce a.
Proof.
  intros H. apply Nat.ltb_lt in H.
  destruct d; cbn [pairwise_sum_rec]; cbv zeta; rewrite H; reflexivity.
Qed.

(** Fewer than eight entries have the same sum whether the reduced axis is
    the inner loop or not. *)
Lemma add_reduce_inner_short (r : list float64) :
  length r < 8 -> add_reduce_inner r = add_reduce r.
Proof.
  intros H. unfold add_reduce_inner, pairwise_sum.
  rewrite pairwise_sum_rec_short by exact H.
  apply float_zero_add. unfold add_reduce.
  apply fold_add_not_neg_zero. discriminate.
Qed.

(** The nesting of the cuts never exhausts [depth]. *)
Lemma pairwise_sum_rec_depth (d : nat) :
  forall (a : list float64) (d' : nat),
  length a <= PW_BLOCKSIZE + d -> length a <= PW_BLOCKSIZE + d' ->
  pairwise_sum_rec d a = pairwise_sum_rec d' a.
Proof.
  unfold PW_BLOCKSIZE.
  induction d as [|d IH]; intros a d' H H'.
  - assert (E : (length a <=? 128)%nat = true) by (apply Nat.leb_le; lia).
    destruct d'; cbn [pairwise_sum_rec]; cbv zeta; unfold PW_BLOCKSIZE;
      rewrite E; reflexivity.
  - destruct d' as [|d'].
    + assert (E : (length a <=? 128)%nat = true) by (apply Nat.leb_le; lia).
      cbn [pairwise_sum_rec]; cbv zeta; unfold PW_BLOCKSIZE; rewrite E; reflexivity.
    + cbn [pairwise_sum_rec]; cbv zeta; unfold PW_BLOCKSIZE.
      destruct (length a <? 8)%nat eqn:E8; [reflexivity |].
      destruct (length a <=? 128)%nat eqn:E128; [reflexivity |].
      apply Nat.leb_gt in E128.
      set (n2 := length a / 2 - (length a / 2) mod 8).
      assert (Hhalf : 64 <= length a / 2).
      { apply Nat.div_le_lower_bound; lia. }
      assert (Hhalf' : length a / 2 < length a).
      { apply Nat.div_lt; lia. }
      assert (Hmod : (length a / 2) mod 8 < 8) by (apply Nat.mod_upper_bound; lia).
      assert (Hn2 : 0 < n2 < length a) by (unfold n2; lia).
      f_equal; apply IH; rewrite ?length_firstn, ?length_skipn; lia.
Qed.

(** The recursion of numpy's pairwise summation. *)
Lemma pairwise_sum_split (a : list float64) :
  PW_BLOCKSIZE < length a ->
  let n2 := length a / 2 - (length a / 2) mod 8 in
  pairwise_sum a =
    PrimFloat.add (pairwise_sum (firstn n2 a)) (pairwise_sum (skipn n2 a)).
Proof.
  intros H n2. unfold PW_BLOCKSIZE in H. unfold pairwise_sum at 1.
  destruct (length a) as [|d] eqn:E; [lia |].
  cbn [pairwise_sum_rec]; cbv zeta; unfold PW_BLOCKSIZE. rewrite E.
  assert (E8 : (S d <? 8)%nat = false) by (apply Nat.ltb_ge; lia).
  assert (E128 : (S d <=? 128)%nat = false) by (apply Nat.leb_gt; lia).
  rewrite E8, E128. fold n2.
  assert (Hhalf' : S d / 2 < S d) by (apply Nat.div_lt; lia).
  assert (Hn2 : n2 < S d) by (unfold n2; lia).
  unfold pairwise_sum.
  f_equal; apply pairwise_sum_rec_depth; unfold PW_BLOCKSIZE;
    rewrite ?length_firstn, ?length_skipn; lia.
Qed.

Lemma fold_add_with_nan (r : list float64) (acc : float64) :
  In PrimFloat.nan r -> fold_left PrimFloat.add r acc = PrimFloat.nan.
Proof.
  intros H. apply in_split in H. destruct H as [l1 [l2 ->]].
  rewrite fold_left_app. cbn [fold_left].
  rewrite float_add_nan_r. apply fold_add_from_nan.
Qed.

Lemma zip_add_with_nan (a b : list float64) :
  length a = length b ->
  In PrimFloat.nan a \/ In PrimFloat.nan b ->
  In PrimFloat.nan (zip_with PrimFloat.add a b).
Proof.
  revert b. induction a as [|x a IH]; intros [|y b] Hlen H;
    cbn [length] in Hlen; try discriminate Hlen.
  - destruct H as [[] | []].
  - cbn [zip_with In] in *.
    destruct H as [[-> | H] | [-> | H]].
    + left. apply float_add_nan_l.
    + right. apply IH; [lia | now left].
    + left. apply float_add_nan_r.
    + right. apply IH; [lia | now right].
Qed.

Lemma zip_with_length (f : float64 -> float64 -> float64) (a b : list float64) :
  length a = length b -> length (zip_with f a b) = length a.
Proof.
  revert b. induction a as [|x a IH]; intros [|y b] H; cbn [length zip_with] in *;
    try reflexivity; try discriminate H.
  f_equal. apply IH. lia.
Qed.

(** The unrolled loop keeps eight accumulators, leaves the entries after
    its blocks, and a NaN it meets stays in an accumulator. *)
Lemma unrolled_spec (b : nat) :
  forall r a : list float64,
  length r = 8 -> 8 * b <= length a ->
  length (fst (unrolled b r a)) = 8 /\
  snd (unrolled b r a) = skipn (8 * b) a /\
  (In PrimFloat.nan r \/ In PrimFloat.nan (firstn (8 * b) a) ->
   In PrimFloat.nan (fst (unrolled b r a))).
Proof.
  induction b as [|b IH]; intros r a Hr Ha.
  - cbn [unrolled fst snd]. rewrite Nat.mul_0_r. cbn [skipn firstn].
    split; [exact Hr |]. split; [reflexivity |].
    intros [H | []]. exact H.
  - cbn [unrolled].
    assert (H8 : length (firstn 8 a) = 8) by (rewrite length_firstn; lia).
    destruct (IH (zip_with PrimFloat.add r (firstn 8 a)) (skipn 8 a))
      as [H1 [H2 H3]].
    + rewrite zip_with_length; lia.
    + rewrite length_skipn. lia.
    + split; [exact H1 |]. split.
      * rewrite H2, skipn_skipn. f_equal. lia.
      * intros H. apply H3.
        replace (8 * S b) with (8 + 8 * b) in H by lia.
        rewrite <- (firstn_skipn 8 (firstn (8 + 8 * b) a)) in H.
        rewrite firstn_firstn, Nat.min_l in H by lia.
        rewrite skipn_firstn_comm in H.
        replace (8 + 8 * b - 8) with (8 * b) in H by lia.
        destruct H as [H | H].
        -- left. apply zip_add_with_nan; [lia | now left].
        -- apply in_app_or in H. destruct H as [H | H].
           ++ left. apply zip_add_with_nan; [lia | now right].
           ++ now right.
Qed.

Lemma pairwise_block_with_nan (a : list float64) :
  8 <= length a -> In PrimFloat.nan a -> pairwise_block a = PrimFloat.nan.
Proof.
  intros Hlen Hnan. unfold pairwise_block.
  assert (Hdiv : 8 * (length a / 8) <= length a) by (apply Nat.Div0.mul_div_le).
  assert (Hone : 1 <= length a / 8) by (apply Nat.div_le_lower_bound; lia).
  destruct (unrolled_spec (length a / 8 - 1) (firstn 8 a) (skipn 8 a))
    as [H1 [H2 H3]].
  { rewrite length_firstn. lia. }
  { rewrite length_skipn. lia. }
  destruct (unrolled (length a / 8 - 1) (firstn 8 a) (skipn 8 a)) as [r rest].
  cbn [fst snd] in H1, H2, H3.
  rewrite <- (firstn_skipn 8 a) in Hnan. apply in_app_or in Hnan.
  assert (Hcases : In PrimFloat.nan r \/ In PrimFloat.nan rest).
  { destruct Hnan as [H | H]; [left; apply H3; now left |].
    rewrite <- (firstn_skipn (8 * (length a / 8 - 1)) (skipn 8 a)) in H.
    apply in_app_or in H. destruct H as [H | H].
    - left. apply H3. now right.
    - right. now rewrite H2. }
  destruct Hcases as [H | H]; [| now apply fold_add_with_nan].
  destruct r as [|r0 [|r1 [|r2 [|r3 [|r4 [|r5 [|r6 [|r7 [|r8 r]]]]]]]]];
    cbn [length] in H1; try lia.
  cbn [nth].
  assert (E : PrimFloat.add
                (PrimFloat.add (PrimFloat.add r0 r1) (PrimFloat.add r2 r3))
                (PrimFloat.add (PrimFloat.add r4 r5) (PrimFloat.add r6 r7)) =
              PrimFloat.nan).
  { cbn [In] in H.
    repeat (destruct H as [-> | H];
            [repeat (rewrite float_add_nan_l || rewrite float_add_nan_r);
             reflexivity |]).
    destruct H. }
  rewrite E. apply fold_add_from_nan.
Qed.

Lemma pairwise_sum_rec_with_nan (d : nat) :
  forall a : list float64,
  In PrimFloat.nan a -> pairwise_sum_rec d a = PrimFloat.nan.
Proof.
  induction d as [|d IH]; intros a Hnan; cbn [pairwise_sum_rec]; cbv zeta;
    unfold PW_BLOCKSIZE;
    (destruct (Nat.ltb_spec (length a) 8) as [H8 | H8];
     [now apply fold_add_with_nan |]);
    (destruct (length a <=? 128)%nat; [now apply pairwise_block_with_nan |]).
  - now apply pairwise_block_with_nan.
  - set (n2 := length a / 2 - (length a / 2) mod 8).
    rewrite <- (firstn_skipn n2 a) in Hnan. apply in_app_or in Hnan.
    destruct Hnan as [H | H]; rewrite (IH _ H);
      [apply float_add_nan_l | apply float_add_nan_r].
Qed.

Lemma add_reduce_inner_with_nan (r : list float64) :
  In PrimFloat.nan r -> add_reduce_inner r = PrimFloat.nan.
Proof.
  intros H. unfold add_reduce_inner, pairwise_sum.
  rewrite pairwise_sum_rec_with_nan by exact H. apply float_add_nan_r.
Qed.

(** Away from a single row of eight channels or more, the channels of each
    row are added one after the other. *)
Lemma mean_axis1_strided (a : ndarray2) :
  shape_ok a -> fst (shape a) <> 1 \/ snd (shape a) < 8 ->
  mean_axis1 a =
    map (fun r => PrimFloat.div (add_reduce r) (float_of_nat (snd (shape a))))
        (rows a).
Proof.
  intros [Hrows Hcols] H. unfold mean_axis1, np_mean_axis1, inner_axis1.
  destruct (Nat.leb_spec (fst (shape a)) 1) as [Hle | Hgt]; [| reflexivity].
  apply map_ext_in. intros r Hr. f_equal.
  rewrite Forall_forall in Hcols. specialize (Hcols r Hr).
  apply add_reduce_inner_short. rewrite Hcols.
  destruct H as [H | H]; [| exact H].
  assert (E : fst (shape a) = 0) by lia. rewrite E in Hrows.
  destruct (rows a); [destruct Hr | discriminate Hrows].
Qed.

(** * Claims about the arithmetic of the reducer *)

(** Two float64 that [==] tells apart are different, the first not being
    NaN. *)
Lemma float_neq (x y : float64) :
  PrimFloat.eqb x x = true -> PrimFloat.eqb x y = false -> x <> y.
Proof. intros Hx H E. subst y. congruence. Qed.

Lemma permutation_of_two {A} (l1 l2 : list A) :
  Permutation l1 l2 -> length l1 <= 2 ->
  l1 = l2 \/ exists a b, l1 = [a; b] /\ l2 = [b; a].
Proof.
  intros Hperm Hlen.
  destruct l1 as [|a [|b [|c l1]]]; simpl in Hlen; try lia.
  - left. symmetry. now apply Permutation_nil.
  - left. symmetry. now apply Permutation_length_1_inv.
  - destruct (Permutation_length_2_inv Hperm) as [-> | ->]; [now left | right].
    now exists a, b.
Qed.

(** C5, as the code behaves: exchanging the two channel columns of a group
    of at most two channels leaves the mean trace unchanged. *)
Theorem mean_unchanged_by_swapping_two_channels
    (df1 df2 : DataFrame)
    (Hrows : index_len df1 = index_len df2)
    (Hperm : Permutation (columns df1) (columns df2))
    (Hwidth : length (columns df1) <= 2) :
  mean_axis1 (values df1) = mean_axis1 (values df2).
Proof.
  destruct df1 as [n1 c1], df2 as [n2 c2]; simpl in *. subst n2.
  destruct (permutation_of_two c1 c2 Hperm Hwidth) as [-> | [a [b [-> ->]]]];
    [reflexivity |].
  rewrite !mean_axis1_strided
    by (try apply values_shape_ok; right; cbn [values shape snd columns length]; lia).
  unfold values; cbn [rows shape snd columns index_len length].
  rewrite !map_map.
  apply map_ext. intros i. cbn [map]. f_equal.
  unfold add_reduce; cbn [fold_left]. apply float_add_zero_swap.
Qed.

Lemma mean_unchanged_by_swapping_two_channels_witness :
  mean_axis1 (values scenario_ts_table) = mean_axis1 (values scenario_ts_swapped).
Proof.
  apply (mean_unchanged_by_swapping_two_channels scenario_ts_table scenario_ts_swapped).
  - reflexivity.
  - apply perm_swap.
  - simpl. lia.
Defined.

(** C5, as the specification words it, fails: the one-row group with
    channels 1, 1e16, -1e16 has mean 0, and the same columns in the order
    1e16, -1e16, 1 have mean 1/3, because the sum is accumulated column by
    column in binary64. *)
Lemma column_order_changes_mean :
  Permutation (columns order_a_table) (columns order_b_table) /\
  index_len order_a_table = index_len order_b_table /\
  well_formed order_a_table /\ well_formed order_b_table /\
  mean_axis1 (values order_a_table) = [0%float] /\
  mean_axis1 (values order_b_table) = [0.33333333333333331%float] /\
  mean_axis1 (values order_a_table) <> mean_axis1 (values order_b_table) /\
  ~ (forall df1 df2 : DataFrame,
       index_len df1 = index_len df2 ->
       Permutation (columns df1) (columns df2) ->
       mean_axis1 (values df1) = mean_axis1 (values df2)).
Proof.
  assert (Hperm : Permutation (columns order_a_table) (columns order_b_table)).
  { exact (Permutation_cons_append
             [("ts_ch2", [1e16%float]); ("ts_ch3", [(-1e16)%float])]
             ("ts_ch1", [1%float])). }
  assert (Ha : mean_axis1 (values order_a_table) = [0%float])
    by (vm_compute; reflexivity).
  assert (Hb : mean_axis1 (values order_b_table) = [0.33333333333333331%float])
    by (vm_compute; reflexivity).
  assert (Hne : mean_axis1 (values order_a_table) <> mean_axis1 (values order_b_table)).
  { rewrite Ha, Hb. intros E.
    apply (f_equal (fun l => hd PrimFloat.nan l)) in E. cbn [hd] in E.
    revert E. apply float_neq; vm_compute; reflexivity. }
  split; [exact Hperm |]. split; [reflexivity |].
  split; [repeat constructor |]. split; [repeat constructor |].
  split; [exact Ha |]. split; [exact Hb |]. split; [exact Hne |].
  intros H. apply Hne. apply H; [reflexivity | exact Hperm].
Qed.

(** C6, as the code behaves: in a matrix of one or two channels, a row
    whose channels all hold [v] and whose sum is finite has a mean equal
    ([==]) to [v]. *)
Theorem mean_of_equal_channels_up_to_two
    (a : ndarray2) (i : nat) (r : list float64) (v : float64)
    (Hshape : shape_ok a)
    (Hwidth : 1 <= snd (shape a) <= 2)
    (Hrow : nth_error (rows a) i = Some r)
    (Hequal : forall x, In x r -> x = v)
    (Hfinite : np_isfinite (add_reduce r) = true) :
  exists m, nth_error (mean_axis1 a) i = Some m /\ np_equal m v = true.
Proof.
  rewrite mean_axis1_strided by (exact Hshape || (right; lia)).
  destruct Hshape as [_ Hcols].
  assert (Hlen : length r = snd (shape a)).
  { rewrite Forall_forall in Hcols. apply Hcols.
    now apply nth_error_In with (n := i). }
  rewrite nth_error_map, Hrow. cbn [option_map].
  eexists. split; [reflexivity |].
  rewrite <- Hlen in *.
  destruct r as [|x [|y [|z r]]]; simpl in Hwidth; try lia.
  - rewrite (Hequal x (or_introl eq_refl)) in *.
    now apply mean_of_one.
  - rewrite (Hequal x (or_introl eq_refl)) in *.
    rewrite (Hequal y (or_intror (or_introl eq_refl))) in *.
    now apply mean_of_two.
Qed.

Lemma mean_of_equal_channels_up_to_two_witness :
  exists m,
    nth_error (mean_axis1 equal_pairs_matrix) 0 = Some m /\
    np_equal m 0.1%float = true.
Proof.
  apply (mean_of_equal_channels_up_to_two equal_pairs_matrix 0
           [0.1%float; 0.1%float] 0.1%float).
  - split; [reflexivity | repeat constructor].
  - simpl. lia.
  - reflexivity.
  - intros x [<- | [<- | []]]; reflexivity.
  - vm_compute. reflexivity.
Defined.

(** C6, as the specification words it, fails: the row 0.1, 0.1, 0.1 has
    mean 0.10000000000000002, which is not 0.1. *)
Lemma three_equal_channels_mean_differs :
  shape_ok tenths_matrix /\
  nth_error (rows tenths_matrix) 0 = Some [0.1%float; 0.1%float; 0.1%float] /\
  nth_error (mean_axis1 tenths_matrix) 0 = Some 0.10000000000000002%float /\
  np_equal 0.10000000000000002%float 0.1%float = false /\
  ~ (forall (a : ndarray2) (i : nat) (r : list float64) (v : float64),
       shape_ok a ->
       nth_error (rows a) i = Some r ->
       r <> [] ->
       (forall x, In x r -> x = v) ->
       nth_error (mean_axis1 a) i = Some v).
Proof.
  assert (Hmean : nth_error (mean_axis1 tenths_matrix) 0 =
                    Some 0.10000000000000002%float) by (vm_compute; reflexivity).
  split; [split; [reflexivity | repeat constructor] |].
  split; [reflexivity |]. split; [exact Hmean |]. split; [vm_compute; reflexivity |].
  intros H.
  assert (E : nth_error (mean_axis1 tenths_matrix) 0 = Some 0.1%float).
  { apply (H tenths_matrix 0 [0.1%float; 0.1%float; 0.1%float] 0.1%float).
    - split; [reflexivity | repeat constructor].
    - reflexivity.
    - discriminate.
    - intros x [<- | [<- | [<- | []]]]; reflexivity. }
  rewrite Hmean in E.
  apply (f_equal (fun o => match o with Some x => x | None => PrimFloat.nan end)) in E.
  revert E. apply float_neq; vm_compute; reflexivity.
Qed.

(** * The time vector *)

Lemma removelast_length {A} (l : list A) :
  length (removelast l) = Nat.pred (length l).
Proof.
  induction l as [|x [|y l] IH]; try reflexivity.
  change (S (length (removelast (y :: l))) = S (length l)).
  now rewrite IH.
Qed.

Lemma set_last_length (y : ndarray1) (v : float64) :
  y <> [] -> length (set_last y v) = length y.
Proof.
  intros Hy. unfold set_last. rewrite length_app, removelast_length. simpl.
  destruct y; [contradiction | simpl; lia].
Qed.

Lemma nth_removelast {A} (l : list A) (i : nat) (d : A) :
  i < Nat.pred (length l) -> nth i (removelast l) d = nth i l d.
Proof.
  revert i. induction l as [|x [|y l] IH]; intros i Hi; simpl in Hi; try lia.
  destruct i as [|i]; [reflexivity |].
  change (nth i (removelast (y :: l)) d = nth i (y :: l) d).
  apply IH. simpl. lia.
Qed.

Lemma set_last_nth (y : ndarray1) (v : float64) (i : nat) (d : float64) :
  i < Nat.pred (length y) -> nth i (set_last y v) d = nth i y d.
Proof.
  intros Hi. unfold set_last.
  rewrite app_nth1 by (rewrite removelast_length; exact Hi).
  now apply nth_removelast.
Qed.

Lemma set_last_last (y : ndarray1) (v d : float64) :
  last (set_last y v) d = v.
Proof. unfold set_last. apply last_last. Qed.

Lemma nth_map_seq (h : nat -> float64) (n i : nat) (d : float64) :
  i < n -> nth i (map h (seq 0 n)) d = h i.
Proof.
  intros Hi. rewrite (nth_indep _ d (h 0)) by (now rewrite length_map, length_seq).
  rewrite map_nth, seq_nth by exact Hi. reflexivity.
Qed.

Lemma linspace_length (start stop : float64) (num : nat) :
  length (linspace start stop num) = num.
Proof.
  unfold linspace. cbv zeta.
  set (y := map _ _).
  assert (Hy : length y = num).
  { unfold y. rewrite length_map.
    destruct (0 <? Z.of_nat num - 1)%Z;
      [destruct (np_equal _ _) |]; unfold arange;
      now rewrite !length_map, length_seq. }
  destruct (Nat.ltb_spec 1 num) as [H | H]; [| exact Hy].
  rewrite set_last_length; [exact Hy |].
  intros E. rewrite E in Hy. simpl in Hy. lia.
Qed.

(** The spacing 20/(N-1) of the time vector is a positive finite float64
    for every row count from 2 up to the largest array dimension. *)
Lemma linspace_step_shape (num : nat) :
  2 <= num -> (Z.of_nat num < 2 ^ 63)%Z ->
  exists m e,
    Prim2SF (PrimFloat.div 20%float (float_of_nat (num - 1))) =
      S754_finite false m e.
Proof.
  intros Hnum Hintp.
  destruct (float_of_nat_shape (num - 1)) as [m [e [Hk [Hd He]]]]; try lia.
  rewrite FloatAxioms.div_spec, Hk.
  now apply SFdiv_twenty_finite.
Qed.

(** [np.linspace(0, 20, num)] for two points or more: entry [i] is [i] times
    the spacing, and the last entry is overwritten by 20. *)
Lemma linspace_0_20 (num : nat) :
  2 <= num -> (Z.of_nat num < 2 ^ 63)%Z ->
  linspace 0%float 20%float num =
    set_last
      (map (fun i => PrimFloat.add
                       (PrimFloat.mul (float_of_nat i)
                          (PrimFloat.div 20%float (float_of_nat (num - 1))))
                       0%float)
           (seq 0 num))
      20%float.
Proof.
  intros Hnum Hintp.
  destruct (linspace_step_shape num Hnum Hintp) as [m [e Hstep]].
  unfold linspace. cbv zeta.
  change (PrimFloat.sub 20%float 0%float) with 20%float.
  destruct (Z.ltb_spec 0 (Z.of_nat num - 1)) as [_ | H]; [| lia].
  assert (Hne : np_equal (PrimFloat.div 20%float (float_of_nat (num - 1))) 0%float = false).
  { unfold np_equal. rewrite FloatAxioms.eqb_spec, Hstep. reflexivity. }
  rewrite Hne.
  destruct (Nat.ltb_spec 1 num) as [_ | H]; [| lia].
  unfold arange. now rewrite !map_map.
Qed.

Lemma linspace_first_entry (step : float64) (m : positive) (e : Z) :
  Prim2SF step = S754_finite false m e ->
  PrimFloat.add (PrimFloat.mul (float_of_nat 0) step) 0%float = 0%float.
Proof.
  intros Hstep. apply Prim2SF_inj.
  rewrite FloatAxioms.add_spec, FloatAxioms.mul_spec, Hstep. reflexivity.
Qed.

(** C7, as the code behaves: the time vector built for a table of N rows has
    exactly N entries; for N = 1 it is the single value 0; for N >= 2 (N
    below 2^63, the bound on an array dimension) it starts at 0, ends at 20,
    and entry i before the last is i times the spacing 20/(N-1), a positive
    finite float64, whatever the sampling of the file. *)
Theorem time_axis_of_loaded_table
    (fs : filesystem) (path : string) (df : DataFrame) (s : state)
    (Hfile : fs path = Some (Csv df))
    (Hintp : (Z.of_nat (index_len df) < 2 ^ 63)%Z) :
  exists l s',
    reduce_HRF fs path s = (Ok l, s') /\
    num_timepoints l = index_len df /\
    length (deref s' (t l)) = index_len df /\
    (index_len df = 1 -> deref s' (t l) = [0%float]) /\
    (2 <= index_len df ->
     let step := PrimFloat.div 20%float (float_of_nat (index_len df - 1)) in
     np_isfinite step = true /\
     PrimFloat.ltb 0%float step = true /\
     nth 0 (deref s' (t l)) PrimFloat.nan = 0%float /\
     last (deref s' (t l)) PrimFloat.nan = 20%float /\
     forall i, i < index_len df - 1 ->
       nth i (deref s' (t l)) PrimFloat.nan =
         PrimFloat.add (PrimFloat.mul (float_of_nat i) step) 0%float).
Proof.
  destruct (reduce_HRF_arrays fs path df s Hfile)
    as [l [s' [Hrun [_ [_ [Hn [Ht _]]]]]]].
  exists l, s'. split; [exact Hrun |]. split; [exact Hn |].
  rewrite Ht. split; [apply linspace_length |].
  split; [intros ->; vm_compute; reflexivity |].
  intros Hnum step.
  destruct (linspace_step_shape (index_len df) Hnum Hintp) as [m [e Hstep]].
  fold step in Hstep.
  rewrite (linspace_0_20 (index_len df) Hnum Hintp). fold step.
  assert (Hentry : forall i, i < index_len df - 1 ->
            nth i (set_last
                     (map (fun i => PrimFloat.add (PrimFloat.mul (float_of_nat i) step) 0%float)
                        (seq 0 (index_len df))) 20%float) PrimFloat.nan =
              PrimFloat.add (PrimFloat.mul (float_of_nat i) step) 0%float).
  { intros i Hi.
    rewrite set_last_nth by (rewrite length_map, length_seq; lia).
    apply nth_map_seq. lia. }
  split; [exact (np_isfinite_finite step false m e Hstep) |].
  split; [rewrite FloatAxioms.ltb_spec, Hstep; reflexivity |].
  split; [| split; [apply set_last_last | exact Hentry]].
  rewrite Hentry by lia. exact (linspace_first_entry step m e Hstep).
Qed.

Lemma time_axis_of_loaded_table_witness :
  exists l s',
    reduce_HRF scenario_fs "scenario.csv" initial_state = (Ok l, s') /\
    num_timepoints l = 2 /\
    length (deref s' (t l)) = 2.
Proof.
  destruct (time_axis_of_loaded_table scenario_fs "scenario.csv" scenario_table
              initial_state eq_refl) as [l [s' [H1 [H2 [H3 _]]]]].
  - reflexivity.
  - exists l, s'. auto.
Defined.

(** C7, as the specification words it, fails: for the table of one row the
    time vector is the single value 0, so it does not end at 20. *)
Lemma single_row_axis_stops_at_zero :
  (exists l s',
     reduce_HRF single_row_fs "single_row.csv" initial_state = (Ok l, s') /\
     num_timepoints l = 1 /\
     deref s' (t l) = [0%float] /\
     last (deref s' (t l)) PrimFloat.nan <> 20%float) /\
  linspace 0%float 20%float 1 = [0%float] /\
  ~ (forall num : nat,
       length (linspace 0%float 20%float num) = num /\
       nth 0 (linspace 0%float 20%float num) PrimFloat.nan = 0%float /\
       last (linspace 0%float 20%float num) PrimFloat.nan = 20%float).
Proof.
  assert (Hne : 0%float <> 20%float) by (apply float_neq; vm_compute; reflexivity).
  split; [| split; [vm_compute; reflexivity |]].
  - destruct (reduce_HRF_arrays single_row_fs "single_row.csv" single_row_table
                initial_state eq_refl) as [l [s' [Hrun [_ [_ [Hn [Ht _]]]]]]].
    exists l, s'. split; [exact Hrun |]. split; [exact Hn |].
    rewrite Ht. split; [vm_compute; reflexivity |].
    change (last (linspace 0%float 20%float (index_len single_row_table)) PrimFloat.nan)
      with 0%float.
    exact Hne.
  - intros H. destruct (H 1) as [_ [_ Hlast]]. apply Hne. exact Hlast.
Qed.

(** * The whole of [disp_avg_HRF] *)

Lemma disp_avg_HRF_run (fs : filesystem) (path title : string)
    (filepath_fig : option string) (show : bool)
    (y_lim : option (float64 * float64)) (df : DataFrame) (s : state) :
  fs path = Some (Csv df) -> band_dtype df = Float64 ->
  disp_avg_HRF fs path title filepath_fig show y_lim s =
    (Ok tt,
     {| heap := heap s ++ arrays_of_table df;
        plt := plt s ++ figure_of_table df title filepath_fig show y_lim;
        trace := trace s ++ events_of_table path df |}).
Proof.
  intros H Hband. rewrite (disp_avg_HRF_float _ _ _ _ _ _ _ _ H Hband).
  unfold bind.
  rewrite (reduce_HRF_table _ _ _ _ H).
  pose proof (nth_past (heap s) 0) as H0.
  pose proof (nth_past (heap s) 1) as H1.
  pose proof (nth_past (heap s) 2) as H2.
  rewrite Nat.add_0_r in H0.
  replace (length (heap s) + 1) with (S (length (heap s))) in H1 by lia.
  replace (length (heap s) + 2) with (S (S (length (heap s)))) in H2 by lia.
  rewrite render_HRF_run; unfold deref; cbn [heap plt trace ts_mean
    std_avg_across_channels t]; rewrite ?H0, ?H1, ?H2; cbn [nth];
    rewrite ?length_app; cbn [length]; try lia.
  - unfold arrays_of_table, figure_of_table, events_of_table.
    rewrite <- app_assoc. reflexivity.
  - rewrite !mean_axis1_length.
    rewrite (rows_values_length (filter_like "ts_ch" df)).
    now rewrite (rows_values_length (filter_like "std_ch" df)).
Qed.

Lemma disp_avg_HRF_missing (fs : filesystem) (path title : string)
    (filepath_fig : option string) (show : bool)
    (y_lim : option (float64 * float64)) (s : state) :
  fs path = None ->
  disp_avg_HRF fs path title filepath_fig show y_lim s =
    (Raise (FileNotFoundError ("Error: File not found at " ++ path)),
     {| heap := heap s; plt := plt s; trace := trace s ++ [PathExists path] |}).
Proof.
  intros H. unfold disp_avg_HRF, bind.
  now rewrite (parse_hrf_csv_missing _ _ _ H).
Qed.

Lemma disp_avg_HRF_malformed (fs : filesystem) (path title : string)
    (filepath_fig : option string) (show : bool)
    (y_lim : option (float64 * float64)) (e : parse_failure) (s : state) :
  fs path = Some (Malformed e) ->
  disp_avg_HRF fs path title filepath_fig show y_lim s =
    (Raise (ReadCsvError e),
     {| heap := heap s; plt := plt s;
        trace := trace s ++ [PathExists path; ReadCsv path] |}).
Proof.
  intros H. unfold disp_avg_HRF, bind.
  now rewrite (parse_hrf_csv_malformed _ _ _ _ H).
Qed.

(** X1: when the file is missing or its content is not a table,
    [disp_avg_HRF] raises the loader's exception before anything is drawn:
    pyplot receives no call (no figure, no image, no display) and no array
    is allocated. *)
Theorem failed_load_draws_nothing
    (fs : filesystem) (path title : string) (filepath_fig : option string)
    (show : bool) (y_lim : option (float64 * float64)) (s : state)
    (Hbad : forall df, fs path <> Some (Csv df)) :
  exists e s',
    disp_avg_HRF fs path title filepath_fig show y_lim s = (Raise e, s') /\
    plt s' = plt s /\ heap s' = heap s /\
    (fs path = None ->
     e = FileNotFoundError ("Error: File not found at " ++ path)) /\
    (forall pe, fs path = Some (Malformed pe) -> e = ReadCsvError pe).
Proof.
  destruct (fs path) as [[pe | df] |] eqn:E.
  - eexists; eexists. split; [apply disp_avg_HRF_malformed, E |].
    repeat split; try discriminate. intros pe' H. now injection H as ->.
  - now destruct (Hbad df).
  - eexists; eexists. split; [apply disp_avg_HRF_missing, E |].
    repeat split; discriminate.
Qed.

Lemma failed_load_draws_nothing_witness :
  exists e s',
    disp_avg_HRF gappy_fs "after_hrf_hbr.csv" "After NO - HbR"
      (Some "after_hrf_hbr.png") true (Some UNIVERSAL_Y_SCALE) initial_state =
      (Raise e, s') /\
    plt s' = [] /\ heap s' = [].
Proof.
  destruct (failed_load_draws_nothing gappy_fs "after_hrf_hbr.csv" "After NO - HbR"
              (Some "after_hrf_hbr.png") true (Some UNIVERSAL_Y_SCALE)
              initial_state) as [e [s' [H1 [H2 [H3 _]]]]].
  - intros df. vm_compute. discriminate.
  - exists e, s'. auto.
Defined.




Ltac pick_member := repeat first [left; reflexivity | right].



(** X16: a table without rows that has a "ts_ch" or a "std_ch" column, as
    a file holding nothing but its header gives, is loaded and reduced, but
    not drawn: [disp_avg_HRF] raises [TypeError] in [plt.fill_between].  By
    then the loader has made its accesses and printed its line and the
    figure is open; nothing is drawn in it, no image is written and no
    display is opened, whatever the arguments. *)
Theorem rowless_table_stops_in_fill_between
    (fs : filesystem) (path title : string) (filepath_fig : option string)
    (show : bool) (y_lim : option (float64 * float64)) (df : DataFrame)
    (s : state)
    (Hfile : fs path = Some (Csv df))
    (Hrows : index_len df = 0)
    (Hgroup : columns (filter_like "ts_ch" df) <> [] \/
              columns (filter_like "std_ch" df) <> []) :
  exists s',
    disp_avg_HRF fs path title filepath_fig show y_lim s = (Raise TypeError, s') /\
    plt s' = plt s ++ [Figure 8%float 5%float] /\
    trace s' = trace s ++
      [ PathExists path; ReadCsv path;
        PrintParsed (basename path)
          (0, length (columns (filter_like "ts_ch" df)))
          (0, length (columns (filter_like "std_ch" df))) ] /\
    saved_paths (plt s') = saved_paths (plt s) /\
    (In Show (plt s') -> In Show (plt s)).
Proof.
  eexists. split.
  - apply disp_avg_HRF_object; [exact Hfile | now apply rowless_gives_object].
  - cbn [plt trace]. split; [reflexivity |]. split.
    + unfold events_of_table, values. cbn [shape].
      unfold filter_like at 1 3. cbn [index_len]. now rewrite Hrows.
    + split.
      * unfold saved_paths. rewrite flat_map_app. cbn [flat_map].
        now rewrite app_nil_r.
      * intros H. apply in_app_or in H. destruct H as [H | [H | []]];
          [exact H | discriminate H].
Qed.

Lemma rowless_table_stops_in_fill_between_witness :
  exists s',
    disp_avg_HRF single_row_fs "header_only.csv" "HRF Data"
      (Some "header_only.png") true None initial_state = (Raise TypeError, s') /\
    plt s' = [Figure 8%float 5%float] /\
    saved_paths (plt s') = [].
Proof.
  destruct (rowless_table_stops_in_fill_between single_row_fs "header_only.csv"
              "HRF Data" (Some "header_only.png") true None header_only_table
              initial_state eq_refl eq_refl) as (s' & H1 & H2 & _ & H4 & _).
  - left. discriminate.
  - exists s'. split; [exact H1 |]. split; [exact H2 | exact H4].
Defined.

(** * Missing values and the transposed mean *)

Lemma add_reduce_with_nan (r : list float64) :
  In PrimFloat.nan r -> add_reduce r = PrimFloat.nan.
Proof.
  intros H. apply in_split in H. destruct H as [l1 [l2 ->]].
  unfold add_reduce. rewrite fold_left_app. simpl.
  rewrite float_add_nan_r. apply fold_add_from_nan.
Qed.

(** X4: missing values are not skipped.  If some channel column of the
    group holds NaN in row [i], the mean trace is NaN at [i], whatever the
    other channels hold. *)
Theorem nan_cell_gives_nan_mean
    (df : DataFrame) (i : nat) (c : string * list float64)
    (Hrow : i < index_len df)
    (Hcol : In c (columns df))
    (Hnan : nth i (snd c) PrimFloat.nan = PrimFloat.nan) :
  nth_error (mean_axis1 (values df)) i = Some PrimFloat.nan.
Proof.
  assert (Hin : In PrimFloat.nan
                   (map (fun c => nth i (snd c) PrimFloat.nan) (columns df))).
  { apply in_map_iff. exists c. split; [exact Hnan | exact Hcol]. }
  unfold mean_axis1, np_mean_axis1, values. cbn [rows shape snd].
  rewrite map_map, nth_error_map.
  rewrite nth_error_nth' with (d := 0) by (now rewrite length_seq).
  rewrite seq_nth by exact Hrow. cbn [option_map]. f_equal.
  destruct (inner_axis1 F_order (index_len df, length (columns df)));
    [rewrite add_reduce_inner_with_nan by exact Hin
    | rewrite add_reduce_with_nan by exact Hin];
    apply float_div_nan_l.
Qed.

Lemma nan_cell_gives_nan_mean_witness :
  nth_error (mean_axis1 (values gap_table)) 1 = Some PrimFloat.nan.
Proof.
  apply (nan_cell_gives_nan_mean gap_table 1 ("ts_ch2", [1%float; PrimFloat.nan])).
  - simpl. lia.
  - simpl. right. left. reflexivity.
  - reflexivity.
Defined.

Lemma map_nth_seq {A B} (g : A -> B) (l : list A) (d : A) :
  map (fun j => g (nth j l d)) (seq 0 (length l)) = map g l.
Proof.
  induction l as [|x l IH]; [reflexivity |].
  cbn [length]. rewrite <- cons_seq, <- seq_shift. cbn [map nth].
  rewrite map_map. cbn [nth]. now rewrite IH.
Qed.

(** The transpose is a view of the same memory: the reduction over its axis
    0 meets the entries in the order in which the reduction over axis 1 of
    the array itself meets them. *)
Lemma np_mean_axis0_transpose (o : order) (a : ndarray2) :
  shape_ok a -> np_mean_axis0 (transposed o) (transpose a) = np_mean_axis1 o a.
Proof.
  intros Hshape. destruct Hshape as [Hrows Hcols].
  unfold np_mean_axis0, np_mean_axis1.
  assert (Hinner : inner_axis0 (transposed o) (shape (transpose a)) =
                   inner_axis1 o (shape a)) by (destruct o; reflexivity).
  rewrite Hinner.
  set (sum := if inner_axis1 o (shape a) then add_reduce_inner else add_reduce).
  unfold transpose. cbn [shape rows fst snd].
  rewrite <- Hrows.
  rewrite <- (map_nth_seq
                (fun r => PrimFloat.div (sum r) (float_of_nat (snd (shape a))))
                (rows a) []).
  apply map_ext_in. intros j Hj. apply in_seq in Hj. f_equal. f_equal.
  rewrite map_map.
  assert (Hlen : length (nth j (rows a) []) = snd (shape a)).
  { rewrite Forall_forall in Hcols. apply Hcols. apply nth_In. lia. }
  transitivity (map (fun j' => (fun x : float64 => x)
                                 (nth j' (nth j (rows a) []) PrimFloat.nan))
                    (seq 0 (length (nth j (rows a) [])))).
  - rewrite Hlen. apply map_ext. intros j'.
    rewrite <- (map_nth (fun r : list float64 => nth j' r PrimFloat.nan) (rows a) [] j).
    f_equal. now destruct j'.
  - exact (eq_trans
             (map_nth_seq (fun x : float64 => x) (nth j (rows a) []) PrimFloat.nan)
             (map_id (nth j (rows a) []))).
Qed.

Lemma mean_axis0_transpose (a : ndarray2) :
  shape_ok a -> mean_axis0 (transpose a) = mean_axis1 a.
Proof. exact (np_mean_axis0_transpose F_order a). Qed.

(** X5: whatever the memory order of a matrix, the mean over axis 0 of its
    transpose is, entry for entry and bit for bit, the mean over axis 1 of
    the matrix itself: both add the same entries in the same order, pairwise
    or one after the other.  So the means the unreached tail of the module
    takes of the transposed [values] are the means [disp_avg_HRF] takes of
    the [values]. *)
Theorem transposed_mean_is_row_mean
    (o : order) (a : ndarray2) (Hshape : shape_ok a) :
  np_mean_axis0 (transposed o) (transpose a) = np_mean_axis1 o a /\
  mean_axis0 (transpose a) = mean_axis1 a.
Proof.
  split; [now apply np_mean_axis0_transpose | now apply mean_axis0_transpose].
Qed.

Lemma transposed_mean_is_row_mean_witness :
  np_mean_axis0 C_order (transpose wide_row_matrix) =
    np_mean_axis1 F_order wide_row_matrix /\
  mean_axis0 (transpose wide_row_matrix) = mean_axis1 wide_row_matrix.
Proof.
  apply (transposed_mean_is_row_mean F_order wide_row_matrix).
  split; [reflexivity | repeat constructor].
Defined.

(** X17: the order in which [np.mean] adds the channels.  For a table of
    two rows or more, and for any table of fewer than eight channels, each
    entry of the mean is the sum of the row's channels taken one after the
    other from 0 in column order, divided by their number.  The bound is
    sharp: the single row 1, 1e16, -1e16, 1, 1, 1, 1, 1 is summed pairwise
    and has mean 0.5, while the same row in a table of two rows has mean
    0.625. *)
Theorem channels_are_added_in_column_order
    (a : ndarray2) (Hshape : shape_ok a)
    (Hcase : fst (shape a) <> 1 \/ snd (shape a) < 8) :
  mean_axis1 a =
    map (fun r => PrimFloat.div (fold_left PrimFloat.add r 0%float)
                    (float_of_nat (snd (shape a))))
        (rows a) /\
  mean_axis1 wide_row_matrix = [0.5%float] /\
  mean_axis1 wide_rows_matrix = [0.625%float; 0.625%float].
Proof.
  split; [now apply mean_axis1_strided |].
  split; vm_compute; reflexivity.
Qed.

Lemma channels_are_added_in_column_order_witness :
  mean_axis1 wide_rows_matrix =
    map (fun r => PrimFloat.div (fold_left PrimFloat.add r 0%float)
                    (float_of_nat 8))
        [wide_row; wide_row] /\
  mean_axis1 wide_row_matrix = [0.5%float] /\
  mean_axis1 wide_rows_matrix = [0.625%float; 0.625%float].
Proof.
  apply (channels_are_added_in_column_order wide_rows_matrix).
  - split; [reflexivity | repeat constructor].
  - left. simpl. discriminate.
Defined.

(** * Paths and file names *)

Lemma string_app_assoc (a b c : string) :
  ((a ++ b) ++ c)%string = (a ++ (b ++ c))%string.
Proof. induction a as [|x a IH]; simpl; [reflexivity | now rewrite IH]. Qed.

Lemma occurs_tail (sub : string) (c : ascii) (s : string) :
  occurs sub s -> occurs sub (String c s).
Proof. intros [pre [post ->]]. now exists (String c pre), post. Qed.

Lemma occurs_startswith (sub s : string) :
  startswith sub s = true -> occurs sub s.
Proof.
  intros H. apply startswith_spec in H. destruct H as [post ->].
  now exists EmptyString, post.
Qed.

Lemma basename_from_no_slash (name : string) :
  ~ occurs "/" name ->
  forall acc, basename_from acc name = (acc ++ name)%string.
Proof.
  induction name as [|c name IH]; intros Hno acc; simpl.
  - induction acc as [|x acc IHacc]; simpl; [reflexivity | now rewrite <- IHacc].
  - destruct (Ascii.eqb c "/") eqn:E.
    + apply Ascii.eqb_eq in E. subst c. destruct Hno.
      now exists EmptyString, name.
    + rewrite IH by (intros H; apply Hno; now apply occurs_tail).
      now rewrite string_app_assoc.
Qed.

Lemma basename_from_after_slash (dir name : string) :
  forall acc,
    basename_from acc (dir ++ String "/" name) = basename_from EmptyString name.
Proof.
  induction dir as [|c dir IH]; intros acc; simpl.
  - reflexivity.
  - destruct (Ascii.eqb c "/"); apply IH.
Qed.

(** X6: the line [parse_hrf_csv] prints on success names the file by its
    last path component, which for a path without a slash, as the driver
    passes them, is the path itself and otherwise what follows the last
    slash, and gives, for each group, the table's row count and the number
    of columns whose label holds the marker. *)
Theorem success_line_names_file_and_shapes
    (fs : filesystem) (front name : string) (df : DataFrame) (s : state)
    (Hfront : front = EmptyString \/ exists dir, front = (dir ++ "/")%string)
    (Hfile : fs (front ++ name)%string = Some (Csv df))
    (Hname : ~ occurs "/" name) :
  exists r s',
    parse_hrf_csv fs (front ++ name)%string s = (Ok r, s') /\
    last (trace s') (PathExists EmptyString) =
      PrintParsed name
        (index_len df,
         length (filter (fun c => str_contains "ts_ch" (fst c)) (columns df)))
        (index_len df,
         length (filter (fun c => str_contains "std_ch" (fst c)) (columns df))).
Proof.
  assert (Hbase : basename (front ++ name)%string = name).
  { unfold basename. destruct Hfront as [-> | [dir ->]].
    - now rewrite basename_from_no_slash by exact Hname.
    - rewrite string_app_assoc.
      change ("/" ++ name)%string with (String "/" name).
      now rewrite basename_from_after_slash, basename_from_no_slash by exact Hname. }
  eexists; eexists. split; [apply parse_hrf_csv_table, Hfile |].
  cbn [trace]. rewrite Hbase.
  change [PathExists (front ++ name)%string; ReadCsv (front ++ name)%string;
          PrintParsed name
            (shape (values (filter_like "ts_ch" df)))
            (shape (values (filter_like "std_ch" df)))]
    with ([PathExists (front ++ name)%string; ReadCsv (front ++ name)%string] ++
          [PrintParsed name
            (shape (values (filter_like "ts_ch" df)))
            (shape (values (filter_like "std_ch" df)))]).
  rewrite app_assoc, last_last. reflexivity.
Qed.

Lemma success_line_names_file_and_shapes_witness :
  (exists r s',
     parse_hrf_csv six_files_fs ("" ++ "before_hrf_hbo.csv")%string initial_state =
       (Ok r, s') /\
     last (trace s') (PathExists EmptyString) =
       PrintParsed "before_hrf_hbo.csv" (2, 2) (2, 2)) /\
  (exists r s',
     parse_hrf_csv
       (fun p => if String.eqb p "data/run1/scenario.csv"
                 then Some (Csv scenario_table) else None)
       ("data/run1/" ++ "scenario.csv")%string initial_state = (Ok r, s') /\
     last (trace s') (PathExists EmptyString) =
       PrintParsed "scenario.csv" (2, 2) (2, 2)).
Proof.
  split.
  - apply (success_line_names_file_and_shapes six_files_fs "" "before_hrf_hbo.csv"
             scenario_table initial_state).
    + now left.
    + reflexivity.
    + intros H. apply str_contains_spec in H. discriminate H.
  - apply (success_line_names_file_and_shapes
             (fun p => if String.eqb p "data/run1/scenario.csv"
                       then Some (Csv scenario_table) else None)
             "data/run1/" "scenario.csv" scenario_table initial_state).
    + right. now exists "data/run1".
    + reflexivity.
    + intros H. apply str_contains_spec in H. discriminate H.
Defined.

Lemma replace_from_absent (old new : string) (s : string) :
  ~ occurs old s -> replace_from old new 0 s = s.
Proof.
  induction s as [|c s IH]; intros Hno; [reflexivity |].
  cbn [replace_from].
  destruct (startswith old (String c s)) eqn:E.
  - destruct Hno. now apply occurs_startswith.
  - rewrite IH; [reflexivity |]. intros H. apply Hno. now apply occurs_tail.
Qed.

(** X7: [str.replace] leaves a name alone when it holds no occurrence of
    the text to replace; a file name without ".csv" therefore gets a figure
    name equal to itself. *)
Theorem replace_without_occurrence
    (old new s : string)
    (Hold : old <> EmptyString)
    (Habsent : ~ occurs old s) :
  str_replace old new s = s.
Proof.
  unfold str_replace. destruct old as [|c old]; [contradiction |].
  now apply replace_from_absent.
Qed.

Lemma replace_without_occurrence_witness :
  str_replace ".csv" ".png" "before_hrf_hbo.txt" = "before_hrf_hbo.txt".
Proof.
  apply (replace_without_occurrence ".csv" ".png" "before_hrf_hbo.txt").
  - discriminate.
  - intros H. apply str_contains_spec in H. discriminate H.
Defined.

Lemma csv_straddle (x : string) :
  startswith ".csv" (x ++ ".csv") = true ->
  x = EmptyString \/ startswith ".csv" x = true.
Proof.
  destruct x as [|a [|b [|c [|d x]]]]; simpl; intros H; auto;
    rewrite ?andb_false_r in H; discriminate H.
Qed.

(** X8: for a name that ends in ".csv" and holds ".csv" nowhere else, the
    figure name is the name with that extension turned into ".png". *)
Theorem figure_name_swaps_extension
    (stem : string) (Hstem : ~ occurs ".csv" stem) :
  str_replace ".csv" ".png" (stem ++ ".csv") = (stem ++ ".png")%string.
Proof.
  unfold str_replace.
  induction stem as [|c stem IH]; [reflexivity |].
  change (String c stem ++ ".csv")%string with (String c (stem ++ ".csv")).
  cbn [replace_from].
  destruct (startswith ".csv" (String c (stem ++ ".csv"))) eqn:E.
  - destruct (csv_straddle (String c stem) E) as [H | H]; [discriminate H |].
    destruct Hstem. now apply occurs_startswith.
  - rewrite IH; [reflexivity |]. intros H. apply Hstem. now apply occurs_tail.
Qed.

Lemma figure_name_swaps_extension_witness :
  str_replace ".csv" ".png" ("after_hrf_hbt" ++ ".csv") = "after_hrf_hbt.png".
Proof.
  apply (figure_name_swaps_extension "after_hrf_hbt").
  intros H. apply str_contains_spec in H. discriminate H.
Defined.

(** * The loop over the six files *)

Lemma drawable_at (fs : filesystem) (path : string) :
  drawable fs path ->
  fs path = Some (Csv (table_at fs path)) /\
  band_dtype (table_at fs path) = Float64.
Proof. intros [df [H Hband]]. unfold table_at. now rewrite H. Qed.

Lemma holds_rows_drawable (fs : filesystem) (path : string) :
  holds_rows fs path -> drawable fs path.
Proof.
  intros [df [H Hrows]]. exists df. split; [exact H | now apply rows_give_float64].
Qed.

Lemma plot_file_table (fs : filesystem) (item : string * string) (r : session) :
  drawable fs (fst item) ->
  plot_file fs item r =
    (Done tt,
     {| core :=
          {| heap := heap (core r) ++ arrays_of_table (table_at fs (fst item));
             plt := plt (core r) ++ driver_figure fs item;
             trace := trace (core r) ++ driver_events fs item |};
        console := console r ++ [(length (trace (core r)), driver_line item)] |}).
Proof.
  intros H. apply drawable_at in H. destruct H as [H Hband].
  destruct item as [file name].
  unfold plot_file, sbind, say, lift. cbn [core console fst snd] in *.
  now rewrite (disp_avg_HRF_run _ _ _ _ _ _ _ _ H Hband).
Qed.

(** The body of the loop on a table whose band is of dtype object. *)
Lemma plot_file_object (fs : filesystem) (item : string * string) (r : session)
    (df : DataFrame) :
  fs (fst item) = Some (Csv df) -> band_dtype df = Object ->
  exists r', plot_file fs item r = (Failed (PyExn TypeError), r').
Proof.
  intros H Hband. destruct item as [file name].
  unfold plot_file, sbind, say, lift. cbn [core console fst snd] in *.
  rewrite (disp_avg_HRF_object _ _ _ _ _ _ _ _ H Hband). eauto.
Qed.

Lemma plot_file_bad (fs : filesystem) (item : string * string) (r : session) :
  ~ holds_table fs (fst item) ->
  exists e r',
    plot_file fs item r = (Failed (PyExn e), r') /\
    heap (core r') = heap (core r) /\
    plt (core r') = plt (core r) /\
    trace (core r') = trace (core r) ++
      PathExists (fst item) ::
      match fs (fst item) with Some _ => [ReadCsv (fst item)] | None => [] end /\
    map snd (console r') = map snd (console r) ++ [driver_line item] /\
    (fs (fst item) = None ->
     e = FileNotFoundError ("Error: File not found at " ++ fst item)) /\
    (forall pe, fs (fst item) = Some (Malformed pe) -> e = ReadCsvError pe).
Proof.
  intros Hbad. destruct item as [file name]. cbn [fst] in *.
  unfold plot_file, sbind, say, lift. cbn [core console].
  destruct (fs file) as [[pe | df] |] eqn:E.
  - rewrite (disp_avg_HRF_malformed _ _ _ _ _ _ _ _ E).
    eexists; eexists. split; [reflexivity |]. cbn [core console heap plt trace].
    rewrite map_app. repeat split; try reflexivity; try discriminate.
    intros pe' H. now injection H as ->.
  - destruct Hbad. now exists df.
  - rewrite (disp_avg_HRF_missing _ _ _ _ _ _ _ E).
    eexists; eexists. split; [reflexivity |]. cbn [core console heap plt trace].
    rewrite map_app. repeat split; try reflexivity; discriminate.
Qed.

Lemma for_each_app {A} (l1 l2 : list A) (body : A -> Script unit) (r : session) :
  for_each (l1 ++ l2) body r = (for_each l1 body ;~ for_each l2 body) r.
Proof.
  revert r. induction l1 as [|x l1 IH]; intros r; simpl.
  - reflexivity.
  - unfold sbind. destruct (body x r) as [[[] | e] r1]; [| reflexivity].
    rewrite IH. reflexivity.
Qed.

(** The loop over items that all hold tables pyplot accepts. *)
Lemma for_each_tables (fs : filesystem) (items : list (string * string)) :
  (forall item, In item items -> drawable fs (fst item)) ->
  forall r, exists r',
    for_each items (plot_file fs) r = (Done tt, r') /\
    plt (core r') = plt (core r) ++ flat_map (driver_figure fs) items /\
    trace (core r') = trace (core r) ++ flat_map (driver_events fs) items /\
    map snd (console r') = map snd (console r) ++ map driver_line items /\
    length (heap (core r')) = length (heap (core r)) + 5 * length items.
Proof.
  induction items as [|item items IH]; intros Hall r.
  - exists r. simpl. rewrite !app_nil_r. repeat split; lia.
  - cbn [for_each]. unfold sbind.
    rewrite plot_file_table by (apply Hall; now left).
    destruct (IH (fun i Hi => Hall i (or_intror Hi))
                {| core :=
                     {| heap := heap (core r) ++ arrays_of_table (table_at fs (fst item));
                        plt := plt (core r) ++ driver_figure fs item;
                        trace := trace (core r) ++ driver_events fs item |};
                   console := console r ++ [(length (trace (core r)), driver_line item)] |})
      as (r' & Hrun & Hplt & Htrace & Hcon & Hheap).
    exists r'. split; [exact Hrun |].
    cbn [core console heap plt trace] in *.
    rewrite Hplt, Htrace, Hcon, Hheap.
    cbn [flat_map map]. rewrite map_app, length_app, <- !app_assoc.
    repeat split; try reflexivity. cbn [length arrays_of_table]. lia.
Qed.

Lemma saved_paths_of_figure (x m sd : ndarray1) (title : string) (c : ascii)
    (p : string) (show : bool) (y_lim : option (float64 * float64)) :
  saved_paths (figure_description x m sd title (Some (String c p)) show y_lim) =
    [String c p].
Proof. destruct y_lim as [[lo hi] |], show; reflexivity. Qed.

(** X9: when the six files of the list all hold tables with at least one
    row, the loop gets through all of them without an exception; it draws
    the figure of each table under the matching title with the common y
    range, and the images it writes are the six ".png" names, in the order
    of the list. *)
Theorem loop_plots_all_six_files
    (fs : filesystem) (r : session)
    (Hall : forall file, In file files -> holds_rows fs file) :
  exists r',
    plot_all_files fs r = (Done tt, r') /\
    plt (core r') = plt (core r) ++
      flat_map (driver_figure fs) (combine files names) /\
    saved_paths (flat_map (driver_figure fs) (combine files names)) =
      [ "before_hrf_hbo.png"; "before_hrf_hbr.png"; "before_hrf_hbt.png";
        "after_hrf_hbo.png"; "after_hrf_hbr.png"; "after_hrf_hbt.png" ] /\
    map snd (console r') = map snd (console r) ++
      map driver_line (combine files names) /\
    trace (core r') = trace (core r) ++
      flat_map (driver_events fs) (combine files names).
Proof.
  destruct (for_each_tables fs (combine files names)) with (r := r)
    as (r' & Hrun & Hplt & Htrace & Hcon & _).
  { intros [file name] Hin. apply holds_rows_drawable, Hall. cbn [fst].
    apply in_combine_l in Hin. exact Hin. }
  exists r'. split; [exact Hrun |]. split; [exact Hplt |].
  split; [| split; [exact Hcon | exact Htrace]].
  cbn [files names combine flat_map]. unfold saved_paths.
  rewrite !flat_map_app. fold saved_paths.
  unfold driver_figure, figure_of_table. cbn [fst snd].
  repeat match goal with
         | |- context [str_replace ".csv" ".png" ?f] =>
             let v := eval vm_compute in (str_replace ".csv" ".png" f) in
             change (str_replace ".csv" ".png" f) with v
         end.
  rewrite !saved_paths_of_figure. reflexivity.
Qed.

Lemma six_files_all_hold_tables :
  forall file, In file files -> holds_rows six_files_fs file.
Proof.
  intros file Hin. exists scenario_table. unfold six_files_fs.
  assert (E : existsb (String.eqb file) files = true).
  { apply existsb_exists. exists file. split; [exact Hin | apply String.eqb_refl]. }
  rewrite E. split; [reflexivity | discriminate].
Qed.

Lemma loop_plots_all_six_files_witness :
  exists r',
    plot_all_files six_files_fs initial_session = (Done tt, r') /\
    saved_paths (flat_map (driver_figure six_files_fs) (combine files names)) =
      [ "before_hrf_hbo.png"; "before_hrf_hbr.png"; "before_hrf_hbt.png";
        "after_hrf_hbo.png"; "after_hrf_hbr.png"; "after_hrf_hbt.png" ].
Proof.
  destruct (loop_plots_all_six_files six_files_fs initial_session
              six_files_all_hold_tables) as (r' & H1 & _ & H3 & _).
  exists r'. auto.
Defined.

Lemma holds_table_dec (fs : filesystem) (path : string) :
  holds_table fs path \/ ~ holds_table fs path.
Proof.
  unfold holds_table. destruct (fs path) as [[pe | df] |].
  - right. intros [df H]. discriminate H.
  - left. now exists df.
  - right. intros [df H]. discriminate H.
Qed.

Lemma band_dtype_cases (df : DataFrame) :
  band_dtype df = Float64 \/ band_dtype df = Object.
Proof. destruct (band_dtype df); auto. Qed.

Lemma loop_stops_at_first_bad_file_aux
    (fs : filesystem) (r : session)
    (done rest : list (string * string)) (file name : string) :
  combine files names = done ++ (file, name) :: rest ->
  (forall item, In item done -> drawable fs (fst item)) ->
  ~ drawable fs file ->
  exists e r', plot_all_files fs r = (Failed (PyExn e), r').
Proof.
  intros Hsplit Hdone Hbad.
  unfold plot_all_files. rewrite Hsplit, for_each_app. unfold sbind at 1.
  destruct (for_each_tables fs done Hdone r) as (r1 & Hrun & _).
  rewrite Hrun. cbn [for_each]. unfold sbind.
  destruct (holds_table_dec fs file) as [[df Hdf] | Hnone].
  - destruct (band_dtype_cases df) as [Hband | Hband].
    + destruct Hbad. now exists df.
    + destruct (plot_file_object fs (file, name) r1 df Hdf Hband) as (r' & Hfail).
      rewrite Hfail. now exists TypeError, r'.
  - destruct (plot_file_bad fs (file, name) r1 Hnone) as (e & r' & Hfail & _).
    rewrite Hfail. now exists e, r'.
Qed.

(** X10: the loop has no recovery.  When the files before it hold tables
    with at least one row, the loop stops at the first file of the list that
    is missing or does not hold a table, with that file's exception; the
    figures of the files before it are complete, nothing is drawn for the
    failing file, and the files after it are never looked at. *)
Theorem loop_stops_at_first_bad_file
    (fs : filesystem) (r : session)
    (done rest : list (string * string)) (file name : string)
    (Hsplit : combine files names = done ++ (file, name) :: rest)
    (Hdone : forall item, In item done -> holds_rows fs (fst item))
    (Hbad : ~ holds_table fs file) :
  exists e r',
    plot_all_files fs r = (Failed (PyExn e), r') /\
    plt (core r') = plt (core r) ++ flat_map (driver_figure fs) done /\
    trace (core r') = trace (core r) ++ flat_map (driver_events fs) done ++
      PathExists file ::
      match fs file with Some _ => [ReadCsv file] | None => [] end /\
    map snd (console r') = map snd (console r) ++
      map driver_line done ++ [driver_line (file, name)] /\
    (fs file = None ->
     e = FileNotFoundError ("Error: File not found at " ++ file)) /\
    (forall pe, fs file = Some (Malformed pe) -> e = ReadCsvError pe).
Proof.
  unfold plot_all_files. rewrite Hsplit, for_each_app. unfold sbind at 1.
  destruct (for_each_tables fs done
              (fun item Hin => holds_rows_drawable fs (fst item) (Hdone item Hin)) r)
    as (r1 & Hrun & Hplt & Htrace & Hcon & _).
  rewrite Hrun. cbn [for_each]. unfold sbind.
  destruct (plot_file_bad fs (file, name) r1 Hbad)
    as (e & r' & Hfail & _ & Hplt' & Htrace' & Hcon' & Hnone & Hmal).
  rewrite Hfail. exists e, r'. split; [reflexivity |].
  cbn [fst] in *.
  rewrite Hplt', Htrace', Hcon', Hplt, Htrace, Hcon, <- !app_assoc.
  repeat split; assumption || reflexivity.
Qed.

Lemma loop_stops_at_first_bad_file_witness :
  exists e r',
    plot_all_files gappy_fs initial_session = (Failed (PyExn e), r') /\
    e = FileNotFoundError "Error: File not found at before_hrf_hbt.csv" /\
    saved_paths (plt (core r')) = [ "before_hrf_hbo.png"; "before_hrf_hbr.png" ].
Proof.
  destruct (loop_stops_at_first_bad_file gappy_fs initial_session
              [ ("before_hrf_hbo.csv", "Before NO - HbO");
                ("before_hrf_hbr.csv", "Before NO - HbR") ]
              [ ("after_hrf_hbo.csv", "After NO - HbO");
                ("after_hrf_hbr.csv", "After NO - HbR");
                ("after_hrf_hbt.csv", "After NO - HbT") ]
              "before_hrf_hbt.csv" "Before NO - HbT")
    as (e & r' & H1 & H2 & _ & _ & H5 & _).
  - reflexivity.
  - intros item [<- | [<- | []]]; exists scenario_table;
      (split; [reflexivity | discriminate]).
  - intros [df H]. discriminate H.
  - exists e, r'. split; [exact H1 |]. split; [now apply H5 |].
    rewrite H2. reflexivity.
Defined.

(** * The module as a whole *)

Lemma drawable_dec (fs : filesystem) (path : string) :
  drawable fs path \/ ~ drawable fs path.
Proof.
  unfold drawable. destruct (fs path) as [[pe | df] |].
  - right. intros [df [H _]]. discriminate H.
  - destruct (band_dtype df) eqn:E.
    + left. now exists df.
    + right. intros [df' [H Hband]]. injection H as <-. congruence.
  - right. intros [df [H _]]. discriminate H.
Qed.

Lemma all_tables_or_first_bad (fs : filesystem) (items : list (string * string)) :
  (forall item, In item items -> drawable fs (fst item)) \/
  exists done file name rest,
    items = done ++ (file, name) :: rest /\
    (forall item, In item done -> drawable fs (fst item)) /\
    ~ drawable fs file.
Proof.
  induction items as [|[file name] items IH].
  - left. intros item [].
  - destruct (drawable_dec fs file) as [Hok | Hbad].
    + destruct IH as [Hall | (done & f & n & rest & -> & Hdone & Hbad)].
      * left. intros item [<- | Hin]; [exact Hok | now apply Hall].
      * right. exists ((file, name) :: done), f, n, rest.
        split; [reflexivity |]. split; [| exact Hbad].
        intros item [<- | Hin]; [exact Hok | now apply Hdone].
    + right. exists [], file, name, items.
      split; [reflexivity |]. split; [intros item [] | exact Hbad].
Qed.

(** X11: the module never runs to its end.  Whatever the files hold, it
    stops with an exception, and whatever is written after [exit()] has no
    effect on the run.  The exception is the [SystemExit] of [exit()] when
    all six files hold tables with at least one row; and when it is
    [SystemExit], every one of the six files holds a table, none of them
    one without rows that has a "ts_ch" or a "std_ch" column. *)
Theorem module_always_stops_at_exit_or_before
    (fs : filesystem) (after_exit : Script unit) (r : session) :
  exists e r',
    module_body fs after_exit r = (Failed e, r') /\
    module_body fs (sret tt) r = (Failed e, r') /\
    ((forall file, In file files -> holds_rows fs file) -> e = SystemExit) /\
    (e = SystemExit ->
     forall file, In file files ->
     exists df, fs file = Some (Csv df) /\
       (index_len df = 0 ->
        columns (filter_like "ts_ch" df) = [] /\
        columns (filter_like "std_ch" df) = [])).
Proof.
  assert (Hband : forall df, band_dtype df = Float64 ->
            index_len df = 0 ->
            columns (filter_like "ts_ch" df) = [] /\
            columns (filter_like "std_ch" df) = []).
  { intros df. unfold band_dtype, values_dtype, values. cbn [shape].
    unfold filter_like at 1 3. cbn [index_len].
    intros H E. rewrite E in H.
    destruct (columns (filter_like "ts_ch" df)) as [|c1 l1];
      destruct (columns (filter_like "std_ch" df)) as [|c2 l2];
      cbn [length result_type] in H; try discriminate H. now split. }
  unfold module_body.
  destruct (all_tables_or_first_bad fs (combine files names))
    as [Hall | (done & file & name & rest & Hsplit & Hdone & Hbad)].
  - assert (Hfiles : forall file, In file files -> drawable fs file).
    { intros file Hin.
      assert (Hitem : exists name, In (file, name) (combine files names)).
      { cbn [files names combine] in *. cbn [In] in Hin.
        repeat (destruct Hin as [<- | Hin];
                [eexists; cbn [In]; pick_member |]).
        destruct Hin. }
      destruct Hitem as [name Hitem]. exact (Hall (file, name) Hitem). }
    destruct (for_each_tables fs (combine files names) Hall r)
      as (r1 & Hrun & _).
    fold (plot_all_files fs) in Hrun.
    assert (Hex : drawable fs "before_hrf_hbo.csv")
      by (apply Hfiles; cbn; auto).
    apply drawable_at in Hex. destruct Hex as [Hex Hexband].
    unfold sbind. rewrite Hrun. unfold lift.
    rewrite (disp_avg_HRF_run _ _ _ _ _ _ _ _ Hex Hexband).
    eexists; eexists. split; [reflexivity |]. split; [reflexivity |].
    split; [reflexivity |].
    intros _ file Hin. destruct (Hfiles file Hin) as [df [Hdf Hdfband]].
    exists df. split; [exact Hdf | now apply Hband].
  - destruct (loop_stops_at_first_bad_file_aux fs r done rest file name Hsplit Hdone Hbad)
      as (e & r' & Hfail).
    unfold sbind. rewrite Hfail.
    exists (PyExn e), r'. split; [reflexivity |]. split; [reflexivity |].
    split; [| discriminate].
    intros Hfiles. destruct Hbad. apply holds_rows_drawable, Hfiles.
    assert (Hin : In (file, name) (combine files names))
      by (rewrite Hsplit; apply in_or_app; right; now left).
    now apply in_combine_l in Hin.
Qed.

(** * The dictionary loader *)

Lemma dict_get_set_same {V} (k : string) (v : V) (d : dict V) :
  dict_get k (dict_set k v d) = Some v.
Proof.
  induction d as [|[k' v'] d IH]; simpl.
  - now rewrite String.eqb_refl.
  - destruct (String.eqb k k') eqn:E; simpl; rewrite ?String.eqb_refl, ?E; auto.
Qed.

Lemma dict_get_set_other {V} (k k' : string) (v : V) (d : dict V) :
  String.eqb k' k = false -> dict_get k' (dict_set k v d) = dict_get k' d.
Proof.
  intros Hne. induction d as [|[k0 v0] d IH]; simpl.
  - now rewrite Hne.
  - destruct (String.eqb k k0) eqn:E; simpl.
    + apply String.eqb_eq in E. subst k0. now rewrite Hne.
    + now rewrite IH.
Qed.

Lemma dict_keys_set_present {V} (k : string) (v : V) (d : dict V) :
  dict_get k d <> None -> dict_keys (dict_set k v d) = dict_keys d.
Proof.
  induction d as [|[k' v'] d IH]; simpl; intros H.
  - now destruct H.
  - destruct (String.eqb k k') eqn:E; simpl.
    + apply String.eqb_eq in E. now subst k'.
    + f_equal. now apply IH.
Qed.

Lemma dict_keys_set_absent {V} (k : string) (v : V) (d : dict V) :
  dict_get k d = None -> dict_keys (dict_set k v d) = dict_keys d ++ [k].
Proof.
  induction d as [|[k' v'] d IH]; simpl; intros H.
  - reflexivity.
  - destruct (String.eqb k k') eqn:E; [discriminate H |].
    simpl. f_equal. now apply IH.
Qed.

Lemma store_table_keeps_key (c sp c' : string) (f : option file)
    (hrf : dict (dict DataFrame)) :
  dict_get c' hrf <> None -> dict_get c' (store_table c sp f hrf) <> None.
Proof.
  intros H. unfold store_table.
  destruct f as [[e | df] |]; try exact H.
  destruct (dict_get c hrf) as [inner |] eqn:E; [| exact H].
  destruct (String.eqb c' c) eqn:Ec.
  - apply String.eqb_eq in Ec. subst c'. rewrite dict_get_set_same. discriminate.
  - now rewrite dict_get_set_other.
Qed.

Lemma store_table_keys (c sp : string) (f : option file)
    (hrf : dict (dict DataFrame)) :
  dict_keys (store_table c sp f hrf) = dict_keys hrf.
Proof.
  unfold store_table.
  destruct f as [[e | df] |]; try reflexivity.
  destruct (dict_get c hrf) as [inner |] eqn:E; [| reflexivity].
  apply dict_keys_set_present. rewrite E. discriminate.
Qed.

Lemma lookup2_store_table (c sp c' sp' : string) (f : option file)
    (hrf : dict (dict DataFrame)) :
  dict_get c hrf <> None ->
  lookup2 c' sp' (store_table c sp f hrf) =
    if String.eqb c' c && String.eqb sp' sp then
      match f with
      | Some (Csv df) => Some df
      | _ => lookup2 c' sp' hrf
      end
    else lookup2 c' sp' hrf.
Proof.
  intros Hc. unfold store_table, lookup2.
  destruct (dict_get c hrf) as [inner |] eqn:E; [| now destruct Hc].
  destruct f as [[e | df] |]; try (now destruct (String.eqb c' c && String.eqb sp' sp)).
  destruct (String.eqb c' c) eqn:Ec; cbn [andb].
  - apply String.eqb_eq in Ec. subst c'. rewrite dict_get_set_same, E.
    destruct (String.eqb sp' sp) eqn:Es.
    + apply String.eqb_eq in Es. subst sp'. apply dict_get_set_same.
    + now apply dict_get_set_other.
  - now rewrite dict_get_set_other.
Qed.

Lemma lookup2_new_condition (c c' sp' : string) (hrf : dict (dict DataFrame)) :
  lookup2 c' sp' (dict_set c [] hrf) =
    if String.eqb c' c then None else lookup2 c' sp' hrf.
Proof.
  unfold lookup2. destruct (String.eqb c' c) eqn:Ec.
  - apply String.eqb_eq in Ec. subst c'. now rewrite dict_get_set_same.
  - now rewrite dict_get_set_other.
Qed.

(** One file of the dictionary loader. *)
Lemma load_one_run (fs : filesystem) (base c sp : string)
    (hrf : dict (dict DataFrame)) (r : session) :
  dict_get c hrf <> None ->
  load_one fs base c sp hrf r =
    (Done (store_table c sp (fs (data_path base c sp)) hrf),
     {| core := {| heap := heap (core r); plt := plt (core r);
                   trace := trace (core r) ++ [ReadCsv (data_path base c sp)] |};
        console := console r ++
          [(S (length (trace (core r))), load_line fs base c sp)] |}).
Proof.
  intros Hc.
  unfold load_one, try_except, sbind, lift, say, set_nested, sret, fail,
    pd_read_csv, bind, emit, ret, raise, store_table, load_line.
  fold (data_file c sp). fold (data_path base c sp).
  cbn [core console heap plt trace].
  destruct (dict_get c hrf) as [inner |] eqn:E; [| now destruct Hc].
  destruct (fs (data_path base c sp)) as [[e | df] |];
    cbn [core console heap plt trace];
    rewrite ?length_app; cbn [length]; rewrite ?Nat.add_1_r; reflexivity.
Qed.

Lemma stamp_lines_cons (start : nat) (l : line) (ls : list line) :
  stamp_lines start (l :: ls) = (start, l) :: stamp_lines (S start) ls.
Proof. reflexivity. Qed.

(** The inner loop over the species of one condition. *)
Lemma load_species_run (fs : filesystem) (base c : string) (sps : list string) :
  forall (hrf : dict (dict DataFrame)) (r : session),
  dict_get c hrf <> None ->
  fold_script sps (load_one fs base c) hrf r =
    (Done (fold_left (fun h sp => store_table c sp (fs (data_path base c sp)) h) sps hrf),
     {| core := {| heap := heap (core r); plt := plt (core r);
                   trace := trace (core r) ++ map (fun sp => ReadCsv (data_path base c sp)) sps |};
        console := console r ++
          stamp_lines (S (length (trace (core r)))) (map (load_line fs base c) sps) |}).
Proof.
  induction sps as [|sp sps IH]; intros hrf r Hc.
  - cbn. rewrite !app_nil_r. now destruct r as [[h p t] co].
  - cbn [fold_script]. unfold sbind. rewrite load_one_run by exact Hc.
    rewrite IH by (now apply store_table_keeps_key).
    cbn [core console heap plt trace fold_left map].
    rewrite stamp_lines_cons, length_app, <- !app_assoc. cbn [length app].
    now rewrite Nat.add_1_r.
Qed.

Lemma store_table_other_key (c sp c' : string) (f : option file)
    (hrf : dict (dict DataFrame)) :
  String.eqb c' c = false ->
  dict_get c' (store_table c sp f hrf) = dict_get c' hrf.
Proof.
  intros Hne. unfold store_table.
  destruct f as [[e | df] |]; try reflexivity.
  destruct (dict_get c hrf) as [inner |]; [| reflexivity].
  now apply dict_get_set_other.
Qed.

Ltac key_present :=
  repeat apply store_table_keeps_key;
  rewrite ?dict_get_set_same; discriminate.

(** The whole of [load_nirs_hrf_data]. *)
Lemma load_nirs_hrf_data_run (fs : filesystem) (base : string) (r : session) :
  load_nirs_hrf_data fs base r =
    (Done (loaded_dict fs base),
     {| core := {| heap := heap (core r); plt := plt (core r);
                   trace := trace (core r) ++
                     map (fun p => ReadCsv (data_path base (fst p) (snd p))) all_pairs |};
        console := console r ++
          (length (trace (core r)), Searching base) ::
          stamp_lines (S (length (trace (core r))))
            (map (fun p => load_line fs base (fst p) (snd p)) all_pairs) |}).
Proof.
  unfold load_nirs_hrf_data, sbind at 1, say.
  cbn [fold_script conditions]. unfold sbind.
  rewrite load_species_run by key_present.
  rewrite load_species_run by key_present.
  unfold loaded_dict, sret. cbn [fold_left conditions].
  cbn [core console heap plt trace].
  f_equal. f_equal.
  - f_equal. rewrite <- app_assoc. reflexivity.
  - rewrite <- !app_assoc. f_equal. cbn [app]. f_equal.
    rewrite !length_app. cbn [species map length all_pairs conditions flat_map app fst snd].
    replace (length (trace (core r)) + 3) with (3 + length (trace (core r))) by lia.
    reflexivity.
Qed.

(** X12: [load_nirs_hrf_data] never raises, whatever the six files hold.
    It always returns a dictionary whose keys are "before" and "after", in
    that order; it calls [pd.read_csv] once on each of the six paths under
    [base_path], in the order of the two loops, without testing for
    existence first; and it draws nothing and allocates nothing. *)
Theorem dictionary_loader_never_raises
    (fs : filesystem) (base_path : string) (r : session) :
  exists hrf_data r',
    load_nirs_hrf_data fs base_path r = (Done hrf_data, r') /\
    dict_keys hrf_data = [ "before"; "after" ] /\
    trace (core r') = trace (core r) ++
      [ ReadCsv (os_path_join base_path "before_hrf_hbo.csv");
        ReadCsv (os_path_join base_path "before_hrf_hbr.csv");
        ReadCsv (os_path_join base_path "before_hrf_hbt.csv");
        ReadCsv (os_path_join base_path "after_hrf_hbo.csv");
        ReadCsv (os_path_join base_path "after_hrf_hbr.csv");
        ReadCsv (os_path_join base_path "after_hrf_hbt.csv") ] /\
    plt (core r') = plt (core r) /\
    heap (core r') = heap (core r).
Proof.
  eexists; eexists. split; [apply load_nirs_hrf_data_run |].
  split; [| repeat split].
  unfold loaded_dict. cbn [fold_left conditions species].
  rewrite !store_table_keys.
  rewrite dict_keys_set_absent.
  - rewrite !store_table_keys. reflexivity.
  - rewrite !store_table_other_key by reflexivity. reflexivity.
Qed.

Lemma lookup2_loaded_dict (fs : filesystem) (base_path condition sp : string) :
  In condition conditions -> In sp species ->
  lookup2 condition sp (loaded_dict fs base_path) =
    match fs (os_path_join base_path (condition ++ "_hrf_" ++ sp ++ ".csv")) with
    | Some (Csv df) => Some df
    | _ => None
    end.
Proof.
  intros Hcondition Hspecies.
  unfold loaded_dict. cbn [fold_left conditions species].
  fold (data_file condition sp). fold (data_path base_path condition sp).
  cbn [conditions species In] in Hcondition, Hspecies.
  destruct Hcondition as [<- | [<- | []]];
    destruct Hspecies as [<- | [<- | [<- | []]]];
    repeat (rewrite lookup2_store_table by key_present;
            match goal with
            | |- context [String.eqb ?a ?b] =>
                let v := eval vm_compute in (String.eqb a b) in
                change (String.eqb a b) with v
            end;
            repeat match goal with
            | |- context [String.eqb ?a ?b] =>
                let v := eval vm_compute in (String.eqb a b) in
                change (String.eqb a b) with v
            end;
            cbn [andb]);
    rewrite ?lookup2_new_condition;
    repeat match goal with
           | |- context [String.eqb ?a ?b] =>
               let v := eval vm_compute in (String.eqb a b) in
               change (String.eqb a b) with v
           end;
    cbv iota;
    repeat (rewrite lookup2_store_table by key_present;
            repeat match goal with
            | |- context [String.eqb ?a ?b] =>
                let v := eval vm_compute in (String.eqb a b) in
                change (String.eqb a b) with v
            end;
            cbn [andb]);
    rewrite ?lookup2_new_condition;
    repeat match goal with
           | |- context [String.eqb ?a ?b] =>
               let v := eval vm_compute in (String.eqb a b) in
               change (String.eqb a b) with v
           end;
    cbv iota;
    repeat match goal with
           | |- context [match fs ?p with _ => _ end] =>
               destruct (fs p) as [[? | ?] |]
           end;
    reflexivity.
Qed.

(** X13: in the dictionary returned for [base_path], the entry of a
    condition and a species is the table of the file
    [<condition>_hrf_<species>.csv] under [base_path] when that file holds
    one; when the file is missing or its content is not a table the entry is
    absent (the inner dictionary has no such key). *)
Theorem dictionary_holds_exactly_the_loadable_tables
    (fs : filesystem) (base_path : string) (r : session)
    (condition sp : string)
    (Hcondition : In condition conditions)
    (Hspecies : In sp species) :
  exists hrf_data r',
    load_nirs_hrf_data fs base_path r = (Done hrf_data, r') /\
    lookup2 condition sp hrf_data =
      match fs (os_path_join base_path (condition ++ "_hrf_" ++ sp ++ ".csv")) with
      | Some (Csv df) => Some df
      | _ => None
      end.
Proof.
  eexists; eexists. split; [apply load_nirs_hrf_data_run |].
  now apply lookup2_loaded_dict.
Qed.

Lemma dictionary_holds_exactly_the_loadable_tables_witness :
  exists hrf_data r',
    load_nirs_hrf_data gappy_fs "" initial_session = (Done hrf_data, r') /\
    lookup2 "before" "hbt" hrf_data = None /\
    lookup2 "after" "hbo" hrf_data = Some scenario_table.
Proof.
  destruct (dictionary_holds_exactly_the_loadable_tables gappy_fs ""
              initial_session "before" "hbt") as (d1 & r1 & H1 & L1);
    [cbn; auto | cbn; auto |].
  destruct (dictionary_holds_exactly_the_loadable_tables gappy_fs ""
              initial_session "after" "hbo") as (d2 & r2 & H2 & L2);
    [cbn; auto | cbn; auto |].
  rewrite H1 in H2. injection H2 as <- <-.
  exists d1, r1. split; [exact H1 |]. split; [exact L1 | exact L2].
Defined.

(** X14: [load_nirs_hrf_data] prints the search line and then exactly one
    line per file, in the order of the loops: the success line with the file
    name for a table, the warning with the full path for a missing file, the
    error line with the file name and the exception for any other
    failure. *)
Theorem dictionary_loader_reports_each_file
    (fs : filesystem) (base_path : string) (r : session) :
  exists hrf_data r',
    load_nirs_hrf_data fs base_path r = (Done hrf_data, r') /\
    map snd (console r') = map snd (console r) ++
      Searching base_path ::
      map (fun p => load_line fs base_path (fst p) (snd p)) all_pairs /\
    forall condition sp, In (condition, sp) all_pairs ->
      let path := os_path_join base_path (condition ++ "_hrf_" ++ sp ++ ".csv") in
      let filename := (condition ++ "_hrf_" ++ sp ++ ".csv")%string in
      (fs path = None ->
       In (WarnNotFound path) (map snd (console r'))) /\
      (forall df, fs path = Some (Csv df) ->
       In (Loaded filename) (map snd (console r'))) /\
      (forall e, fs path = Some (Malformed e) ->
       In (ErrorLoading filename (PyExn (ReadCsvError e))) (map snd (console r'))).
Proof.
  eexists; eexists. split; [apply load_nirs_hrf_data_run |].
  cbn [console].
  assert (Hlines :
            map snd
              (console r ++
               (length (trace (core r)), Searching base_path) ::
               stamp_lines (S (length (trace (core r))))
                 (map (fun p => load_line fs base_path (fst p) (snd p)) all_pairs)) =
            map snd (console r) ++
              Searching base_path ::
              map (fun p => load_line fs base_path (fst p) (snd p)) all_pairs).
  { rewrite map_app. reflexivity. }
  split; [exact Hlines |].
  intros condition sp Hin. cbv zeta. rewrite Hlines.
  assert (Hline : In (load_line fs base_path condition sp)
                     (map (fun p => load_line fs base_path (fst p) (snd p)) all_pairs)).
  { apply in_map_iff. exists (condition, sp). split; [reflexivity | exact Hin]. }
  unfold load_line, data_path, data_file in Hline.
  repeat split.
  - intros E. rewrite E in Hline. apply in_or_app. right. now right.
  - intros df E. rewrite E in Hline. apply in_or_app. right. now right.
  - intros e E. rewrite E in Hline. apply in_or_app. right. now right.
Qed.

Lemma dictionary_loader_reports_each_file_witness :
  exists hrf_data r',
    load_nirs_hrf_data gappy_fs "" initial_session = (Done hrf_data, r') /\
    In (WarnNotFound "before_hrf_hbt.csv") (map snd (console r')) /\
    In (ErrorLoading "after_hrf_hbr.csv" (PyExn (ReadCsvError ParserError)))
       (map snd (console r')).
Proof.
  destruct (dictionary_loader_reports_each_file gappy_fs "" initial_session)
    as (d & r' & H1 & _ & H3).
  exists d, r'. split; [exact H1 |]. split.
  - apply (H3 "before" "hbt"); [cbn; auto 10 | reflexivity].
  - apply (H3 "after" "hbr"); [cbn; auto 10 | reflexivity].
Defined.

(** * The module after [exit()] *)

Lemma loaded_dict_has_conditions (fs : filesystem) (base_path condition : string) :
  In condition conditions ->
  exists inner, dict_get condition (loaded_dict fs base_path) = Some inner.
Proof.
  intros Hin.
  assert (H : dict_get condition (loaded_dict fs base_path) <> None).
  { unfold loaded_dict. cbn [fold_left conditions species].
    cbn [conditions In] in Hin. destruct Hin as [<- | [<- | []]].
    - do 3 apply store_table_keeps_key.
      rewrite dict_get_set_other by reflexivity. key_present.
    - key_present. }
  destruct (dict_get condition (loaded_dict fs base_path)) as [inner |];
    [now exists inner | now destruct H].
Qed.

(** X15: the code after [exit()] looks the "after" HbO table up without a
    guard.  Run on its own it raises [KeyError] for the key "hbo" exactly
    when ./after_hrf_hbo.csv is missing or holds no table, whatever the
    other five files hold; when the file holds a table, the two means it
    computes are the mean trace and the spread trace [disp_avg_HRF] computes
    for that table. *)
Theorem tail_lookup_needs_after_hbo
    (fs : filesystem) (r : session) :
  exists o r',
    module_tail fs r = (o, r') /\
    ((forall df, fs "./after_hrf_hbo.csv" <> Some (Csv df)) ->
     o = Failed (KeyError "hbo")) /\
    (forall df, fs "./after_hrf_hbo.csv" = Some (Csv df) ->
     o = Done (mean_axis1 (values (filter_like "ts_ch" df)),
               mean_axis1 (values (filter_like "std_ch" df)))).
Proof.
  unfold module_tail. unfold sbind at 1. rewrite load_nirs_hrf_data_run.
  destruct (loaded_dict_has_conditions fs "./" "before") as [before Hbefore];
    [cbn; auto |].
  destruct (loaded_dict_has_conditions fs "./" "after") as [after Hafter];
    [cbn; auto |].
  pose proof (lookup2_loaded_dict fs "./" "after" "hbo") as Hlook.
  unfold lookup2 in Hlook. rewrite Hafter in Hlook.
  change (os_path_join "./" ("after" ++ "_hrf_" ++ "hbo" ++ ".csv"))
    with "./after_hrf_hbo.csv" in Hlook.
  specialize (Hlook ltac:(cbn; auto) ltac:(cbn; auto)).
  set (d := loaded_dict fs "./") in *.
  set (r1 := {| core := _; console := _ |}).
  assert (Hblock : exists r2,
            (if dict_truthy d && dict_has "before" d &&
                match dict_get "before" d with
                | Some before => dict_has "hbo" before
                | None => false
                end
             then
               before <~ dict_item "before" d ;;
               before_hbo_df <~ dict_item "hbo" before ;;
               say PreviewHeader ;~
               say (PreviewHead (df_head before_hbo_df)) ;~
               say (TsColumnCount (snd (shape (values (filter_like "ts_ch" before_hbo_df))))) ;~
               say (StdColumnCount (snd (shape (values (filter_like "std_ch" before_hbo_df)))))
             else sret tt) r1 = (Done tt, r2)).
  { unfold dict_has at 1. rewrite Hbefore.
    destruct (dict_truthy d && true && dict_has "hbo" before) eqn:G.
    - apply andb_true_iff in G. destruct G as [_ G].
      unfold dict_has in G. unfold sbind, dict_item. rewrite Hbefore.
      unfold sret at 1. cbv beta iota.
      destruct (dict_get "hbo" before) as [df |]; [| discriminate G].
      eexists. reflexivity.
    - eexists. reflexivity. }
  destruct Hblock as [r2 Hblock].
  unfold sbind at 1. cbv zeta in Hblock |- *. rewrite Hblock.
  unfold sbind, dict_item. rewrite Hafter.
  unfold sret at 1. cbv beta iota. rewrite Hlook.
  destruct (fs "./after_hrf_hbo.csv") as [[e | df] |] eqn:E.
  - eexists; eexists. split; [reflexivity |].
    split; [reflexivity | intros df H; discriminate H].
  - eexists; eexists. split; [reflexivity |].
    split; [intros H; now destruct (H df) |].
    intros df' H. injection H as <-.
    unfold sret. cbv zeta.
    rewrite !mean_axis0_transpose by apply values_shape_ok. reflexivity.
  - eexists; eexists. split; [reflexivity |].
    split; [reflexivity | intros df H; discriminate H].
Qed.
